(** * A shallow embedding of the pytesseract OCR front end

    The development follows the Python sources module by module:
    [config.py], [utils.py], [image_preprocessor.py], [ocr_engine.py] and
    [app.py].  The two external libraries (the imaging library and the OCR
    engine) are not part of the repository; they appear here as the
    parameters of sections, together with the part of their documented
    contract that a statement relies on.

    Numbers.  The confidence values handled by the program are Python
    [int]s and [float]s.  Every [int] and every finite binary64 [float] is a
    rational number, so a numeric value is embedded as a [Q]; [int(x)] is
    truncation toward zero, [float(x)] is the identity, comparison is the
    comparison of rationals.  The confidences of the data model are
    [float]s, and the arithmetic of the averages is the arithmetic of
    [float]s: each sum and each quotient is rounded to the nearest binary64
    number, ties to even.  The averages are taken over confidences from -1
    to 100, on which no sum or quotient leaves the range of binary64; the
    infinities and [nan] have no counterpart here.

    Strings.  A Python [str] is embedded as a Rocq [string] holding its
    UTF-8 encoding, which is how the literals of the sources are written
    below. *)

From Stdlib Require Import ZArith QArith Qabs Qpower Qround.
From Stdlib Require Import Bool List String Ascii Lia.
From Stdlib Require Import Floats.PrimFloat Floats.FloatOps Floats.SpecFloat.
Import ListNotations.

Local Open Scope Z_scope.
Local Open Scope string_scope.

(* ===================================================================== *)
(** * Python values *)
(* ===================================================================== *)

Module Py.

(** ** Numbers *)

(** [int(x)]: truncation toward zero. *)
Definition int (x : Q) : Z := Z.quot (Qnum x) (Zpos (Qden x)).

(** [float(x)]: the numeric value is kept. *)
Definition float (x : Q) : Q := x.

(** [x == y], [x >= y] on numbers. *)
Definition eqb (x y : Q) : bool := Qeq_bool x y.
Definition geb (x y : Q) : bool := Qle_bool y x.

(** The rational denoted by a finite binary64 value; used to write the
    value of a floating-point literal of the sources exactly. *)
Definition of_binary64 (f : PrimFloat.float) : Q :=
  match Prim2SF f with
  | S754_finite s m e =>
      let v := if (0 <=? e)%Z
               then inject_Z (Zpos m * 2 ^ e)
               else Qmake (Zpos m) (Pos.pow 2 (Z.to_pos (- e))) in
      if s then Qopp v else v
  | _ => 0%Q
  end.

(** Rounding of a non-negative rational to the nearest integer, ties to
    even: the rounding of the [f] presentation type, and of binary64
    arithmetic. *)
Definition round_half_even (x : Q) : Z :=
  let n := Qnum x in
  let d := Zpos (Qden x) in
  let q := n / d in
  let r := n mod d in
  if (2 * r <? d)%Z then q
  else if (d <? 2 * r)%Z then q + 1
  else if Z.even q then q else q + 1.

(** The binary logarithm of a positive rational, rounded down: the
    difference of the logarithms of the numerator and of the denominator,
    or one less. *)
Definition ilog2 (x : Q) : Z :=
  let k := Z.log2 (Qnum x) - Z.log2 (Zpos (Qden x)) in
  if Qle_bool (2 ^ k) x then k else k - 1.

(** The exponent of the last binary digit that binary64 keeps of [x]: 53
    significant digits, and none below [2 ^ -1074], the spacing of the
    subnormal numbers. *)
Definition exponent (x : Q) : Z := Z.max (ilog2 (Qabs x) - 52) (-1074).

(** The binary64 number nearest to [x], ties to even: the result of a
    [float] operation whose exact result is [x]. *)
Definition round64 (x : Q) : Q :=
  if Qeq_bool x 0 then 0%Q
  else
    let e := exponent x in
    let m := round_half_even (Qabs x / 2 ^ e) in
    let v := (inject_Z m * 2 ^ e)%Q in
    if Qle_bool 0 x then v else (- v)%Q.

(** [x + y] and [x / y] on [float]s. *)
Definition add (x y : Q) : Q := round64 (x + y).
Definition truediv (x y : Q) : Q := round64 (x / y).

(** [sum(l)] on [float]s, as the interpreter computes it up to version
    3.11: the elements are added to [0] one after the other, from the left,
    each addition rounded.  (From version 3.12 on the interpreter also
    compensates the rounding errors of the additions; the two results are
    the same whenever the additions are exact, as they are on integral
    confidences.) *)
Definition sum (l : list Q) : Q := fold_left add l 0%Q.

(** [len(l)] as an operand of a [float] operation: the [int] is converted
    to the nearest [float]. *)
Definition len {A : Type} (l : list A) : Q :=
  round64 (inject_Z (Z.of_nat (List.length l))).

(** ** Strings *)

Definition chr (n : N) : string := String (ascii_of_N n) EmptyString.

(** UTF-8 encoding of a code point of the basic multilingual plane. *)
Definition utf8 (cp : N) : string :=
  (if cp <? 128 then chr cp
   else if cp <? 2048 then
     chr (192 + cp / 64) ++ chr (128 + cp mod 64)
   else
     chr (224 + cp / 4096) ++ chr (128 + (cp / 64) mod 64)
       ++ chr (128 + cp mod 64))%N.

(** The code points for which [str.isspace] holds: the characters that
    [str.strip()] removes. *)
Definition whitespace_code_points : list N :=
  [9; 10; 11; 12; 13; 28; 29; 30; 31; 32; 133; 160; 5760;
   8192; 8193; 8194; 8195; 8196; 8197; 8198; 8199; 8200; 8201; 8202;
   8232; 8233; 8239; 8287; 12288]%N.

Definition whitespace : list string := map utf8 whitespace_code_points.

Fixpoint rev (s : string) : string :=
  match s with
  | EmptyString => EmptyString
  | String c s' => rev s' ++ String c EmptyString
  end.

Fixpoint drop (n : nat) (s : string) : string :=
  match n, s with
  | O, _ => s
  | S n', String _ s' => drop n' s'
  | S _, EmptyString => EmptyString
  end.

(** Removes the longest prefix made of members of [ws]. *)
Fixpoint lstrip_with (ws : list string) (fuel : nat) (s : string) : string :=
  match fuel with
  | O => s
  | S fuel' =>
      match find (fun w => String.prefix w s) ws with
      | Some w => lstrip_with ws fuel' (drop (String.length w) s)
      | None => s
      end
  end.

Definition lstrip (s : string) : string :=
  lstrip_with whitespace (String.length s) s.

Definition rstrip (s : string) : string :=
  rev (lstrip_with (map rev whitespace) (String.length s) (rev s)).

(** [s.strip()] *)
Definition strip (s : string) : string := rstrip (lstrip s).

(** Truth value of a string: non-empty. *)
Definition truthy (s : string) : bool := negb (String.eqb s "").

(** [sep.join(l)] *)
Fixpoint join (sep : string) (l : list string) : string :=
  match l with
  | [] => ""
  | [x] => x
  | x :: rest => x ++ sep ++ join sep rest
  end.

(** [s.split(sep)] for a one-character separator. *)
Fixpoint split (sep : ascii) (s : string) : list string :=
  match s with
  | EmptyString => [""]
  | String c s' =>
      if Ascii.eqb c sep then "" :: split sep s'
      else match split sep s' with
           | [] => [String c ""]
           | w :: ws => String c w :: ws
           end
  end.

(** Decimal numeral of a natural number. *)
Definition digit (n : N) : string :=
  String (ascii_of_N (48 + n)) EmptyString.

Fixpoint decimal_fuel (fuel : nat) (n : N) : string :=
  match fuel with
  | O => ""
  | S fuel' =>
      if (n <? 10)%N then digit n
      else decimal_fuel fuel' (n / 10) ++ digit (n mod 10)
  end.

Definition decimal (n : N) : string := decimal_fuel (S (N.to_nat n)) n.

(** The number written by a string of decimal digits, read from the left
    after the digits already read; [None] when a character is not a
    digit. *)
Definition is_digit (c : ascii) : bool :=
  ((48 <=? N_of_ascii c) && (N_of_ascii c <=? 57))%N.

Fixpoint numeral_from (acc : N) (s : string) : option N :=
  match s with
  | EmptyString => Some acc
  | String c s' =>
      if is_digit c then numeral_from (10 * acc + (N_of_ascii c - 48)) s'
      else None
  end.

Definition numeral (s : string) : option N := numeral_from 0 s.

(** ** [repr] of a string

    [repr(s)] shows [s] between quotes, with a backslash before the quote
    and the backslash, the escapes of the tabulation, the line feed and the
    carriage return, and the hexadecimal escape of every other character
    that is not printable.  For a character beyond ASCII, whether it is
    printable is read in the Unicode database of the interpreter: the
    parameter [printable], on code points. *)

Definition hex_digit (n : N) : string :=
  String (ascii_of_N (if (n <? 10)%N then 48 + n else 87 + n)) "".

(** The last [k] hexadecimal digits of [n], in lower case. *)
Fixpoint hex (k : nat) (n : N) : string :=
  match k with
  | O => ""
  | S k' => hex k' (n / 16) ++ hex_digit (n mod 16)
  end.

(** The escape sequence of a character that is not shown as it is. *)
Definition escape (cp : N) : string :=
  if (cp <? 256)%N then "\x" ++ hex 2 cp
  else if (cp <? 65536)%N then "\u" ++ hex 4 cp
  else "\U" ++ hex 8 cp.

Definition double_quote : ascii := "034"%char.

(** An ASCII character between the quotes [quote]. *)
Definition repr_ascii (quote c : ascii) : string :=
  let n := N_of_ascii c in
  if Ascii.eqb c quote || Ascii.eqb c "\" then String "\" (String c "")
  else if (n =? 9)%N then "\t"
  else if (n =? 10)%N then "\n"
  else if (n =? 13)%N then "\r"
  else if (n <? 32)%N || (n =? 127)%N then escape n
  else String c "".

(** A character beyond ASCII, given its code point and its bytes: shown as
    it is when the Unicode database has it printable. *)
Definition repr_wide (printable : N -> bool) (cp : N) (raw : string)
  : string :=
  if printable cp then raw else escape cp.

Fixpoint has_char (c : ascii) (s : string) : bool :=
  match s with
  | EmptyString => false
  | String c' s' => Ascii.eqb c' c || has_char c s'
  end.

(** The quotes of [repr]: single quotes, unless the string has a single
    quote and no double quote. *)
Definition repr_quote (s : string) : ascii :=
  if has_char "'" s && negb (has_char double_quote s) then double_quote
  else "'"%char.

(** The characters of [s], one after the other; [need] bytes of the
    character at hand are still to come, [cp] and [raw] are its code point
    and its bytes so far. *)
Fixpoint repr_from (printable : N -> bool) (quote : ascii) (need : nat)
  (cp : N) (raw : string) (s : string) : string :=
  match s with
  | EmptyString => raw
  | String c s' =>
      let b := N_of_ascii c in
      match need with
      | O =>
          if (b <? 128)%N then
            repr_ascii quote c ++ repr_from printable quote 0 0 "" s'
          else if (b <? 224)%N then
            repr_from printable quote 1 (b mod 32) (String c "") s'
          else if (b <? 240)%N then
            repr_from printable quote 2 (b mod 16) (String c "") s'
          else repr_from printable quote 3 (b mod 8) (String c "") s'
      | S O =>
          repr_wide printable (cp * 64 + b mod 64) (raw ++ String c "")
            ++ repr_from printable quote 0 0 "" s'
      | S need' =>
          repr_from printable quote need' (cp * 64 + b mod 64)
            (raw ++ String c "") s'
      end
  end.

(** [repr(s)] *)
Definition repr (printable : N -> bool) (s : string) : string :=
  let quote := repr_quote s in
  String quote (repr_from printable quote 0 0 "" s ++ String quote "").

(** A character of ASCII that [repr] shows as it is between single
    quotes: printable, and neither the single quote nor the backslash. *)
Definition plain_char (c : ascii) : bool :=
  let n := N_of_ascii c in
  (32 <=? n)%N && (n <? 127)%N && negb (n =? 39)%N && negb (n =? 92)%N.

(** A string that [repr] shows as it is, between single quotes: its ASCII
    characters are printable and neither the single quote nor the
    backslash, and its other characters are printable. *)
Fixpoint shown_from (printable : N -> bool) (need : nat) (cp : N)
  (s : string) : bool :=
  match s with
  | EmptyString => true
  | String c s' =>
      let b := N_of_ascii c in
      match need with
      | O =>
          if (b <? 128)%N then plain_char c && shown_from printable 0 0 s'
          else if (b <? 224)%N then shown_from printable 1 (b mod 32) s'
          else if (b <? 240)%N then shown_from printable 2 (b mod 16) s'
          else shown_from printable 3 (b mod 8) s'
      | S O =>
          (128 <=? b)%N && printable (cp * 64 + b mod 64)%N
          && shown_from printable 0 0 s'
      | S need' =>
          (128 <=? b)%N
          && shown_from printable need' (cp * 64 + b mod 64)%N s'
      end
  end.

Definition shown (printable : N -> bool) (s : string) : bool :=
  shown_from printable 0 0 s.

(** ** Presentation of numbers *)

Definition sign (x : Q) : string :=
  if Qle_bool 0 x then "" else "-".

(** [f"{x:.0f}"] *)
Definition format_0f (x : Q) : string :=
  sign x ++ decimal (Z.to_N (round_half_even (Qabs x))).

(** [f"{x:.1f}"] *)
Definition format_1f (x : Q) : string :=
  let t := round_half_even (Qabs x * 10) in
  sign x ++ decimal (Z.to_N (t / 10)) ++ "." ++ digit (Z.to_N (t mod 10)).

End Py.

(* ===================================================================== *)
(** * Exceptions *)
(* ===================================================================== *)

(** The exceptions the modelled code can raise: a failed [dict] lookup, a
    list index out of range, and a failure reported by the OCR engine, with
    the message it carries. *)
Inductive exn : Type :=
| KeyError (key : string)
| IndexError
| EngineError (message : string).

(** A computation that returns a value or raises. *)
Definition res (A : Type) : Type := (exn + A)%type.

Definition ok {A : Type} (a : A) : res A := inr a.
Definition raise {A : Type} (e : exn) : res A := inl e.

Definition rbind {A B : Type} (m : res A) (k : A -> res B) : res B :=
  match m with
  | inl e => inl e
  | inr a => k a
  end.

Declare Scope res_scope.
Delimit Scope res_scope with res.
Notation "x <- m ;; k" := (rbind m (fun x => k))
  (at level 61, m at next level, right associativity) : res_scope.

(** [l[i]] *)
Definition index {A : Type} (l : list A) (i : nat) : res A :=
  match nth_error l i with
  | Some a => ok a
  | None => raise IndexError
  end.

(** A [for] loop whose body can raise: the state is threaded from left to
    right and the first exception ends the loop. *)
Fixpoint for_each {S I : Type} (body : S -> I -> res S) (items : list I)
  (s : S) : res S :=
  match items with
  | [] => ok s
  | i :: items' => rbind (body s i) (for_each body items')
  end.

(** [range(n)] *)
Definition range (n : nat) : list nat := seq 0 n.

(* ===================================================================== *)
(** * config.py *)
(* ===================================================================== *)

(** A [dict] literal with string keys, in source order. *)
Definition dict (V : Type) : Type := list (string * V).

Fixpoint dict_get {V : Type} (d : dict V) (k : string) : option V :=
  match d with
  | [] => None
  | (k', v) :: d' => if String.eqb k k' then Some v else dict_get d' k
  end.

Definition LANGUAGES : dict string :=
  [ ("日本語", "jpn");
    ("英語", "eng");
    ("英語+日本語", "eng+jpn") ].

Definition PSM_MODES : dict string :=
  [ ("3: 完全自動ページセグメンテーション（デフォルト）", "3");
    ("6: 単一の均一なテキストブロック", "6");
    ("7: 単一のテキスト行", "7");
    ("8: 単一の単語", "8");
    ("11: 可能な限り多くのテキストを検出", "11") ].

Definition DEFAULT_LANGUAGE : string := "eng".
Definition DEFAULT_PSM_MODE : string := "3".
Definition DEFAULT_OEM_MODE : string := "3".

(** A colour is a triple of channel values, in the channel order of the
    array it is drawn on (BGR for the constants below). *)
Definition color : Type := (Z * Z * Z)%type.

Definition BBOX_COLOR_HIGH_CONF : color := (0, 255, 0).
Definition BBOX_COLOR_MEDIUM_CONF : color := (0, 165, 255).
Definition BBOX_COLOR_LOW_CONF : color := (0, 0, 255).

Definition BBOX_THICKNESS : Z := 2.

Definition CONFIDENCE_THRESHOLD_HIGH : Q := 80.
Definition CONFIDENCE_THRESHOLD_MEDIUM : Q := 50.

(* ===================================================================== *)
(** * utils.py, first part: [format_confidence] *)
(* ===================================================================== *)

Definition format_confidence (confidence : Q) : string :=
  if Py.eqb confidence (-1) then "N/A"
  else Py.format_1f confidence ++ "%".

(* ===================================================================== *)
(** * ocr_engine.py, first part: [get_bbox_color] *)
(* ===================================================================== *)

Definition get_bbox_color (confidence : Q) : color :=
  if Py.geb confidence CONFIDENCE_THRESHOLD_HIGH then BBOX_COLOR_HIGH_CONF
  else if Py.geb confidence CONFIDENCE_THRESHOLD_MEDIUM then
    BBOX_COLOR_MEDIUM_CONF
  else BBOX_COLOR_LOW_CONF.

(* ===================================================================== *)
(** * The structured OCR data *)
(* ===================================================================== *)

(** The dictionary of parallel columns returned by the engine's structured
    extraction, restricted to the six columns the program reads. *)
Record ocr_data : Type := mk_ocr_data {
  text : list string;
  conf : list Q;
  left : list Z;
  top : list Z;
  width : list Z;
  height : list Z
}.

(** The row view of the same data: one word record per position. *)
Record word_record : Type := mk_word_record {
  w_text : string;
  w_conf : Q;
  w_left : Z;
  w_top : Z;
  w_width : Z;
  w_height : Z
}.

Fixpoint zip_records (ts : list string) (cs : list Q) (xs ys ws hs : list Z)
  : list word_record :=
  match ts, cs, xs, ys, ws, hs with
  | t :: ts', c :: cs', x :: xs', y :: ys', w :: ws', h :: hs' =>
      mk_word_record t c x y w h :: zip_records ts' cs' xs' ys' ws' hs'
  | _, _, _, _, _, _ => []
  end.

Definition records (d : ocr_data) : list word_record :=
  zip_records (text d) (conf d) (left d) (top d) (width d) (height d).

(** The columns of a result set are aligned: one entry per word in each. *)
Definition aligned (d : ocr_data) : Prop :=
  List.length (conf d) = List.length (text d) /\
  List.length (left d) = List.length (text d) /\
  List.length (top d) = List.length (text d) /\
  List.length (width d) = List.length (text d) /\
  List.length (height d) = List.length (text d).

(** The range of a confidence in the data model: from the sentinel [-1] to
    [100]. *)
Definition conf_in_range (c : Q) : Prop := (-1 <= c /\ c <= 100)%Q.

(** A confidence on which truncation cannot produce the sentinel from
    another number: it does not lie strictly between -2 and -1. *)
Definition exact_sentinel (c : Q) : Prop := ~ (-2 < c /\ c < -1)%Q.

(** An OCR result set: aligned columns, confidences in range. *)
Definition result_set (d : ocr_data) : Prop :=
  aligned d /\ Forall conf_in_range (conf d).

(** A word record has text when its trimmed text is not empty. *)
Definition has_text (r : word_record) : bool :=
  Py.truthy (Py.strip (w_text r)).

(** A word record is scored when its confidence is not the sentinel. *)
Definition scored (r : word_record) : bool :=
  negb (Qeq_bool (w_conf r) (-1)).


(** The arithmetic mean of a non-empty list of numbers. *)
Definition mean (l : list Q) : Q :=
  (fold_right Qplus 0 l / inject_Z (Z.of_nat (List.length l)))%Q.

(* ===================================================================== *)
(** * utils.py, second part *)
(* ===================================================================== *)

(** A row of the detail table; the fields are the six columns
    単語, 信頼度, X座標, Y座標, 幅, 高さ. *)
Record table_row : Type := mk_table_row {
  col_word : string;
  col_confidence : string;
  col_x : Z;
  col_y : Z;
  col_width : Z;
  col_height : Z
}.

Definition DataFrame : Type := list table_row.

(** The row of the table for a word record: its trimmed text, its
    formatted confidence and its box. *)
Definition row_of_record (r : word_record) : table_row :=
  mk_table_row (Py.strip (w_text r)) (format_confidence (w_conf r))
    (w_left r) (w_top r) (w_width r) (w_height r).

Definition results_body (d : ocr_data) (results : list table_row) (i : nat)
  : res (list table_row) :=
  (t <- index (text d) i ;;
   let word := Py.strip t in
   if negb (Py.truthy word) then ok results
   else
     c <- index (conf d) i ;;
     x <- index (left d) i ;;
     y <- index (top d) i ;;
     w <- index (width d) i ;;
     h <- index (height d) i ;;
     ok (results ++ [mk_table_row word (format_confidence c) x y w h])%list)%res.

Definition create_results_dataframe (d : ocr_data) : res DataFrame :=
  for_each (results_body d) (range (List.length (text d))) [].

Definition calculate_average_confidence (d : ocr_data) : Q :=
  let confidences :=
    map fst
      (filter (fun ct => Py.truthy (Py.strip (snd ct))
                         && negb (Py.eqb (fst ct) (-1)))
         (combine (conf d) (text d))) in
  match confidences with
  | [] => 0%Q
  | _ => Py.truediv (Py.sum confidences) (Py.len confidences)
  end.

(* ===================================================================== *)
(** * ocr_engine.py: the average computed by [process_image_with_ocr] *)
(* ===================================================================== *)

(** Lines 197-202 of [process_image_with_ocr]. *)
Definition average_of_ocr_data (d : ocr_data) : Q :=
  let confidences :=
    map (fun ct => Py.float (fst ct))
      (filter (fun ct => Py.truthy (Py.strip (snd ct))
                         && negb (Py.int (fst ct) =? -1)%Z)
         (combine (conf d) (text d))) in
  match confidences with
  | [] => 0%Q
  | _ => Py.truediv (Py.sum confidences) (Py.len confidences)
  end.

(* ===================================================================== *)
(** * Images *)
(* ===================================================================== *)

(** An image of the imaging library, in one of the two modes the pipeline
    meets: [L] (one channel) and [RGB] (three channels).  The pixels are
    stored row by row. *)
Inductive Image : Type :=
| ImageL (px : list (list Z))
| ImageRGB (px : list (list color)).

(** The array form used by the drawing library: rows of three-channel
    pixels. *)
Definition raster : Type := list (list color).

(** [image.size]: width and height. *)
Definition size (image : Image) : nat * nat :=
  match image with
  | ImageL px => (List.length (hd [] px), List.length px)
  | ImageRGB px => (List.length (hd [] px), List.length px)
  end.

(** Height and width of an array. *)
Definition shape (m : raster) : nat * nat :=
  (List.length m, List.length (hd [] m)).

Definition single_channel (image : Image) : Prop :=
  exists px, image = ImageL px.

(** [a[:, :, ::-1]], and the BGR/RGB colour conversion: the channel order
    is reversed. *)
Definition reverse_channels (m : raster) : raster :=
  map (map (fun c : color => let '(c0, c1, c2) := c in (c2, c1, c0))) m.

(** [image.convert('RGB')]: a grey level is replicated on the three
    channels. *)
Definition convert_RGB (image : Image) : Image :=
  match image with
  | ImageL px => ImageRGB (map (map (fun v : Z => (v, v, v))) px)
  | ImageRGB px => ImageRGB px
  end.

(** [np.array(image)] for an image in mode RGB. *)
Definition to_array (image : Image) : raster :=
  match convert_RGB image with
  | ImageRGB px => px
  | ImageL _ => []
  end.

(** [Image.fromarray(a)] for an array of three-channel pixels. *)
Definition fromarray (m : raster) : Image := ImageRGB m.

(** The colour at column [x] of row [y]. *)
Definition pixel (m : raster) (p : nat * nat) : option color :=
  nth_error (nth (snd p) m []) (fst p).

(** The colour an image shows at a position. *)
Definition rgb_at (image : Image) (p : nat * nat) : option color :=
  pixel (to_array image) p.

Inductive font : Type := FONT_HERSHEY_SIMPLEX.

Definition point : Type := (Z * Z)%type.

(* ===================================================================== *)
(** * The OCR engine *)
(* ===================================================================== *)

(** The three operations of the engine the program uses.  A call returns a
    value or raises. *)
Record Engine : Type := mk_Engine {
  get_languages : res (list string);
  image_to_data : Image -> string -> string -> res ocr_data;
  image_to_string : Image -> string -> string -> res string
}.

(** The calls made to the engine, with the language and the configuration
    string passed. *)
Inductive engine_call : Type :=
| Call_get_languages
| Call_image_to_data (lang config : string)
| Call_image_to_string (lang config : string).

Definition is_ocr_call (c : engine_call) : bool :=
  match c with
  | Call_get_languages => false
  | Call_image_to_data _ _ => true
  | Call_image_to_string _ _ => true
  end.

(** A computation that calls the engine: it extends the log of the calls
    made so far, and returns or raises.  The log survives an exception. *)
Definition M (A : Type) : Type :=
  list engine_call -> res A * list engine_call.

Definition ret {A : Type} (a : A) : M A := fun log => (ok a, log).

Definition bind {A B : Type} (m : M A) (k : A -> M B) : M B :=
  fun log =>
    match m log with
    | (inl e, log') => (inl e, log')
    | (inr a, log') => k a log'
    end.

Definition lift {A : Type} (r : res A) : M A := fun log => (r, log).

Definition call {A : Type} (c : engine_call) (r : res A) : M A :=
  fun log => (r, (log ++ [c])%list).

(** [try: body  except Exception as e: handler(e)] *)
Definition try_except {A : Type} (body : M A) (handler : exn -> M A) : M A :=
  fun log =>
    match body log with
    | (inl e, log') => handler e log'
    | (inr a, log') => (inr a, log')
    end.

Declare Scope engine_scope.
Delimit Scope engine_scope with M.
Notation "x <- m ;; k" := (bind m (fun x => k))
  (at level 61, m at next level, right associativity) : engine_scope.
Notation "' pat <- m ;; k" := (bind m (fun x => match x with pat => k end))
  (at level 61, pat pattern, m at next level, right associativity)
  : engine_scope.

(** [d[k]] *)
Definition getitem {V : Type} (d : dict V) (k : string) : res V :=
  match dict_get d k with
  | Some v => ok v
  | None => raise (KeyError k)
  end.

(** [x in l] for a list of strings. *)
Definition contains (l : list string) (x : string) : bool :=
  existsb (String.eqb x) l.

(** [x] occurs in [s]: it is a substring of it. *)
Definition occurs (x s : string) : Prop :=
  exists a b : string, s = a ++ x ++ b.

(** The four values returned to the form: the image with the boxes, the
    text, the confidence line and the detail table. *)
Definition outputs : Type :=
  (option Image * string * string * option DataFrame)%type.

(* ===================================================================== *)
(** * A small model of the libraries *)
(* ===================================================================== *)

(** The statements below hold for every implementation of the libraries.
    This module gives one, small and executable, on which they are run:
    a painter of rectangles and of block letters, a luma transform, filters
    that leave the image as it is, and an engine that answers with fixed
    data. *)
Module Ref.

Fixpoint paint_row (area : nat * nat -> bool) (c : color) (y x : nat)
  (row : list color) : list color :=
  match row with
  | [] => []
  | p :: row' =>
      (if area (x, y) then c else p) :: paint_row area c y (S x) row'
  end.

Fixpoint paint_rows (area : nat * nat -> bool) (c : color) (y : nat)
  (m : raster) : raster :=
  match m with
  | [] => []
  | row :: m' => paint_row area c y 0 row :: paint_rows area c (S y) m'
  end.

Definition paint (area : nat * nat -> bool) (c : color) (m : raster)
  : raster :=
  paint_rows area c 0 m.

Definition in_box (x1 y1 x2 y2 x y : Z) : bool :=
  ((x1 <=? x) && (x <=? x2) && (y1 <=? y) && (y <=? y2))%Z.

(** A filled rectangle for a negative thickness, else a frame of the given
    thickness centred on the sides. *)
Definition rectangle_area (p1 p2 : point) (thickness : Z) (p : nat * nat)
  : bool :=
  let '(x1, y1) := p1 in
  let '(x2, y2) := p2 in
  let x := Z.of_nat (fst p) in
  let y := Z.of_nat (snd p) in
  if (thickness <? 0)%Z then in_box x1 y1 x2 y2 x y
  else
    let h := (thickness / 2)%Z in
    in_box (x1 - h) (y1 - h) (x2 + h) (y2 + h) x y
    && negb (in_box (x1 + h + 1) (y1 + h + 1) (x2 - h - 1) (y2 - h - 1) x y).

Definition rectangle (m : raster) (p1 p2 : point) (c : color) (thickness : Z)
  : raster :=
  paint (rectangle_area p1 p2 thickness) c m.

(** Block letters, six pixels wide and nine high, on a baseline. *)
Definition getTextSize (s : string) (f : font) (scale : Q) (thickness : Z)
  : (Z * Z) * Z :=
  ((6 * Z.of_nat (String.length s), 9), 4).

Definition text_area (s : string) (origin : point) (f : font) (scale : Q)
  (thickness : Z) (p : nat * nat) : bool :=
  let '(x0, y0) := origin in
  in_box x0 (y0 - 9) (x0 + 6 * Z.of_nat (String.length s) - 1) y0
    (Z.of_nat (fst p)) (Z.of_nat (snd p)).

Definition putText (m : raster) (s : string) (origin : point) (f : font)
  (scale : Q) (c : color) (thickness : Z) : raster :=
  paint (text_area s origin f scale thickness) c m.

Definition luma (c : color) : Z :=
  let '(r, g, b) := c in (r * 299 + g * 587 + b * 114) / 1000.

Definition enhance (image : Image) (factor : Q) : Image := image.

Definition denoise (m : raster) (h hColor templateWindowSize
                                   searchWindowSize : Z) : raster := m.

Definition engine (installed : list string) (data : ocr_data)
  (plain_text : string) : Engine :=
  mk_Engine (ok installed) (fun _ _ _ => ok data) (fun _ _ _ => ok plain_text).

(** A white image, eighty pixels by thirty. *)
Definition page : Image :=
  ImageRGB (repeat (repeat (255, 255, 255) 80) 30).

(** Four rows of OCR data: a structural placeholder, two words, and a
    blank. *)
Definition data : ocr_data :=
  mk_ocr_data [""; "TEST"; " "; "123"] [-1; 96; 95; 91 # 2]%Q
    [0; 5; 0; 45] [0; 12; 0; 12] [80; 30; 0; 22] [30; 10; 0; 10].

(** A table of the printable characters: that of the Unicode database on
    ASCII and Latin-1; every character beyond counts as printable. *)
Definition isprintable (cp : N) : bool :=
  if (cp <? 128)%N then (32 <=? cp)%N && (cp <? 127)%N
  else (160 <? cp)%N && negb (cp =? 173)%N.

End Ref.

(* ===================================================================== *)
(** * Further notions used by the statements *)
(* ===================================================================== *)

(** A confidence as the engine reports it: the sentinel, or a score from 0
    to 100. *)
Definition engine_confidence (c : Q) : Prop :=
  (c == -1 \/ (0 <= c /\ c <= 100))%Q.

(** Row [i] has an entry in each of the five columns read for a table
    row. *)
Definition row_complete (d : ocr_data) (i : nat) : Prop :=
  (i < List.length (conf d) /\ i < List.length (left d) /\
   i < List.length (top d) /\ i < List.length (width d) /\
   i < List.length (height d))%nat.

(** Row [i] is passed over by the drawing loop: its text is blank, or its
    confidence truncates to -1. *)
Definition row_skipped (d : ocr_data) (i : nat) : Prop :=
  exists t : string,
    nth_error (text d) i = Some t /\
    (Py.truthy (Py.strip t) = false \/
     exists c : Q, nth_error (conf d) i = Some c /\ Py.int c = -1).

(** The configuration string passed to the engine for a segmentation
    mode. *)
Definition config_for (psm_mode : string) : string :=
  "--oem " ++ DEFAULT_OEM_MODE ++ " --psm " ++ psm_mode.

(** The text shown for an extracted text: the placeholder when it is
    empty. *)
Definition shown_text (extracted_text : string) : string :=
  if negb (Py.truthy extracted_text)
  then "（テキストが検出されませんでした）"
  else extracted_text.

(** The box of row [i] can be read: the row has an entry in each of the
    four box columns. *)
Definition box_complete (d : ocr_data) (i : nat) : Prop :=
  (i < List.length (left d) /\ i < List.length (top d) /\
   i < List.length (width d) /\ i < List.length (height d))%nat.

(** [list(d.keys())] *)
Definition keys {V : Type} (d : dict V) : list string := map fst d.

(** The choices and the initial values of the two dropdowns of the form
    built by [create_gradio_interface]. *)
Definition language_choices : list string := keys LANGUAGES.
Definition language_default : string := "英語".
Definition psm_choices : list string := keys PSM_MODES.
Definition psm_default : string :=
  "3: 完全自動ページセグメンテーション（デフォルト）".

Module Sample.

(** Rows that the drawing loop passes over: blanks and placeholders; the
    box columns are empty. *)
Definition placeholders : ocr_data :=
  mk_ocr_data [""; "x"; "  "] [-1; -1]%Q [] [] [] [].

(** A word whose row lacks its box. *)
Definition truncated : ocr_data :=
  mk_ocr_data [""; "word"] [-1; 90]%Q [0] [0] [0] [0].

(** Twenty words: one scored 87, nineteen scored 80.  The arithmetic mean
    of the scores is 80.35, which is not a binary64 number. *)
Definition scores : ocr_data :=
  mk_ocr_data (repeat "w" 20) (87 :: repeat 80 19)%Q
    (repeat 0 20) (repeat 0 20) (repeat 1 20) (repeat 1 20).

(** An engine whose structured extraction fails. *)
Definition failing_engine (installed : list string) (message : string)
  : Engine :=
  mk_Engine (ok installed) (fun _ _ _ => raise (EngineError message))
    (fun _ _ _ => ok "").

End Sample.

Section Program.

(** [chr(cp).isprintable()]: the table of the printable characters of the
    Unicode database of the interpreter. *)
Variable isprintable : N -> bool.

(** [str(e)]: of a [KeyError], the [repr] of the key; of an [IndexError] of
    a list, its standard message. *)
Definition exn_str (e : exn) : string :=
  match e with
  | KeyError k => Py.repr isprintable k
  | IndexError => "list index out of range"
  | EngineError m => m
  end.

(** The outputs of the handler of [ocr_interface] for an exception. *)
Definition error_outputs (e : exn) : outputs :=
  (None, "エラーが発生しました: " ++ exn_str e, "", None).

(** The operations of the imaging libraries the program calls. *)
Variable luma : color -> Z.
Variable Contrast_enhance : Image -> Q -> Image.
Variable Sharpness_enhance : Image -> Q -> Image.
Variable fastNlMeansDenoisingColored : raster -> Z -> Z -> Z -> Z -> raster.

(** The drawing operations of the array library.  They update the array
    in place; here they return the updated array. *)
Variable cv2_rectangle : raster -> point -> point -> color -> Z -> raster.
Variable cv2_getTextSize : string -> font -> Q -> Z -> (Z * Z) * Z.
Variable cv2_putText :
  raster -> string -> point -> font -> Q -> color -> Z -> raster.

(** The installed OCR engine. *)
Variable pytesseract : Engine.

(** ** image_preprocessor.py *)

(** [image.convert('L')] *)
Definition convert_L (image : Image) : Image :=
  match image with
  | ImageL px => ImageL px
  | ImageRGB px => ImageL (map (map luma) px)
  end.

(** [image.copy()]: a new image with the same content. *)
Definition copy (image : Image) : Image := image.

Definition pil_to_cv2 (pil_image : Image) : raster :=
  let rgb_image := convert_RGB pil_image in
  let open_cv_image := to_array rgb_image in
  reverse_channels open_cv_image.

Definition cv2_to_pil (cv2_image : raster) : Image :=
  let rgb_image := reverse_channels cv2_image in
  fromarray rgb_image.

Definition convert_to_grayscale (image : Image) : Image :=
  convert_L image.

Definition enhance_contrast (image : Image) (factor : Q) : Image :=
  Contrast_enhance image factor.

Definition enhance_sharpness (image : Image) (factor : Q) : Image :=
  Sharpness_enhance image factor.

Definition denoise_image (image : Image) : Image :=
  let cv2_image := pil_to_cv2 image in
  let denoised := fastNlMeansDenoisingColored cv2_image 10 10 7 21 in
  cv2_to_pil denoised.

Definition preprocess_image (image : Image)
  (apply_grayscale apply_contrast apply_sharpness apply_denoise : bool)
  (contrast_factor sharpness_factor : Q) : Image :=
  let processed_image := copy image in
  let processed_image :=
    if apply_denoise then denoise_image processed_image
    else processed_image in
  let processed_image :=
    if apply_contrast then enhance_contrast processed_image contrast_factor
    else processed_image in
  let processed_image :=
    if apply_sharpness then
      enhance_sharpness processed_image sharpness_factor
    else processed_image in
  let processed_image :=
    if apply_grayscale then convert_to_grayscale processed_image
    else processed_image in
  processed_image.

(** The filters in their order of application, each with its switch. *)
Definition filter_chain
  (apply_grayscale apply_contrast apply_sharpness apply_denoise : bool)
  (contrast_factor sharpness_factor : Q) : list (bool * (Image -> Image)) :=
  [ (apply_denoise, denoise_image);
    (apply_contrast, fun im => enhance_contrast im contrast_factor);
    (apply_sharpness, fun im => enhance_sharpness im sharpness_factor);
    (apply_grayscale, convert_to_grayscale) ].

(** Applies, from left to right, the filters whose switch is on. *)
Definition run_chain (chain : list (bool * (Image -> Image)))
  (image : Image) : Image :=
  fold_left (fun im f => f im) (map snd (filter fst chain)) image.

(** ** ocr_engine.py *)

Definition perform_ocr (image : Image) (lang psm_mode : string) : M string :=
  let custom_config :=
    "--oem " ++ DEFAULT_OEM_MODE ++ " --psm " ++ psm_mode in
  (text <- call (Call_image_to_string lang custom_config)
             (image_to_string pytesseract image lang custom_config) ;;
   ret (Py.strip text))%M.

Definition get_ocr_data (image : Image) (lang psm_mode : string)
  : M ocr_data :=
  let custom_config :=
    "--oem " ++ DEFAULT_OEM_MODE ++ " --psm " ++ psm_mode in
  (data <- call (Call_image_to_data lang custom_config)
             (image_to_data pytesseract image lang custom_config) ;;
   ret data)%M.

(** One iteration of the loop of [draw_bounding_boxes]. *)
Definition draw_box (d : ocr_data) (show_confidence : bool)
  (cv2_image : raster) (i : nat) : res raster :=
  (t <- index (text d) i ;;
   if negb (Py.truthy (Py.strip t)) then ok cv2_image
   else
     c <- index (conf d) i ;;
     if (Py.int c =? -1)%Z then ok cv2_image
     else
       x <- index (left d) i ;;
       y <- index (top d) i ;;
       w <- index (width d) i ;;
       h <- index (height d) i ;;
       c' <- index (conf d) i ;;
       let conf := Py.float c' in
       let color := get_bbox_color conf in
       let cv2_image :=
         cv2_rectangle cv2_image (x, y) (x + w, y + h) color
           BBOX_THICKNESS in
       if show_confidence then
         let label := Py.format_0f conf ++ "%" in
         let label_size := fst (cv2_getTextSize label FONT_HERSHEY_SIMPLEX
                                  (1 # 2) 1) in
         let cv2_image :=
           cv2_rectangle cv2_image
             (x, y - snd label_size - 4) (x + fst label_size, y)
             color (-1) in
         let cv2_image :=
           cv2_putText cv2_image label (x, y - 2) FONT_HERSHEY_SIMPLEX
             (1 # 2) (255, 255, 255) 1 in
         ok cv2_image
       else ok cv2_image)%res.

Definition draw_bounding_boxes (image : Image) (d : ocr_data)
  (show_confidence : bool) : res Image :=
  let cv2_image := to_array (convert_RGB image) in
  let cv2_image := reverse_channels cv2_image in
  let n_boxes := List.length (text d) in
  (cv2_image <- for_each (draw_box d show_confidence) (range n_boxes)
                  cv2_image ;;
   let rgb_image := reverse_channels cv2_image in
   let result_image := fromarray rgb_image in
   ok result_image)%res.

(** The pixels a drawing operation may write, given where and how it
    draws: the footprint of a rectangle (corners, thickness) and of a text
    (string, origin, font, scale, thickness). *)
Variable rectangle_area : point -> point -> Z -> nat * nat -> bool.
Variable text_area : string -> point -> font -> Q -> Z -> nat * nat -> bool.

(** The pixels written for one word record: the box, and with
    [show_confidence] the background and the text of the label. *)
Definition box_area (r : word_record) (show_confidence : bool)
  (p : nat * nat) : bool :=
  let x := w_left r in
  let y := w_top r in
  let label := Py.format_0f (w_conf r) ++ "%" in
  let label_size :=
    fst (cv2_getTextSize label FONT_HERSHEY_SIMPLEX (1 # 2) 1) in
  rectangle_area (x, y) (x + w_width r, y + w_height r) BBOX_THICKNESS p
  || (show_confidence
      && (rectangle_area (x, y - snd label_size - 4) (x + fst label_size, y)
            (-1) p
          || text_area label (x, y - 2) FONT_HERSHEY_SIMPLEX (1 # 2) 1 p)).

(** The drawn regions of a result set: the rectangles and labels of the
    word records that have text and are scored. *)
Definition drawn (d : ocr_data) (show_confidence : bool) (p : nat * nat)
  : bool :=
  existsb (fun r => has_text r && scored r && box_area r show_confidence p)
    (records d).

Definition process_image_with_ocr (image : Image) (lang psm_mode : string)
  (show_confidence : bool) : M (Image * string * ocr_data * Q) :=
  (ocr_data <- get_ocr_data image lang psm_mode ;;
   text <- perform_ocr image lang psm_mode ;;
   bbox_image <- lift (draw_bounding_boxes image ocr_data show_confidence) ;;
   let avg_confidence := average_of_ocr_data ocr_data in
   ret (bbox_image, text, ocr_data, avg_confidence))%M.

(** ** app.py *)

Definition missing_language_message (language : string)
  (missing_langs available_langs : list string) : string :=
  "
**❌ エラー: 言語データが見つかりません**

選択した言語（" ++ language ++ "）のデータがインストールされていません。

**不足している言語データ:** " ++ Py.join ", " missing_langs ++ "

**インストール方法:**
```bash
# Ubuntu/Debianの場合
sudo apt-get update
sudo apt-get install tesseract-ocr-" ++ hd "" missing_langs ++ "
```

**利用可能な言語:** " ++ Py.join ", " available_langs ++ "

英語（eng）であれば通常デフォルトでインストールされています。
".

Definition ocr_interface (image : option Image) (language psm_mode : string)
  (apply_grayscale apply_contrast apply_sharpness apply_denoise : bool)
  : M outputs :=
  match image with
  | None => ret (None, "画像をアップロードしてください。", "", None)
  | Some image =>
      try_except
        (lang_code <- lift (getitem LANGUAGES language) ;;
         psm_code <- lift (getitem PSM_MODES psm_mode) ;;
         available_langs <- call Call_get_languages
                              (get_languages pytesseract) ;;
         let required_langs := Py.split "+" lang_code in
         let missing_langs :=
           filter (fun lang => negb (contains available_langs lang))
             required_langs in
         match missing_langs with
         | _ :: _ =>
             let error_msg :=
               missing_language_message language missing_langs
                 available_langs in
             ret (None, error_msg, "", None)
         | [] =>
             let processed_image :=
               preprocess_image image apply_grayscale apply_contrast
                 apply_sharpness apply_denoise 2 2 in
             ' (bbox_image, extracted_text, ocr_data, avg_confidence) <-
               process_image_with_ocr processed_image lang_code psm_code
                 true ;;
             let extracted_text :=
               if negb (Py.truthy extracted_text)
               then "（テキストが検出されませんでした）"
               else extracted_text in
             let confidence_info :=
               "**平均信頼度:** " ++ format_confidence avg_confidence in
             details_df <- lift (create_results_dataframe ocr_data) ;;
             ret (Some bbox_image, extracted_text, confidence_info,
                  Some details_df)
         end)%M
        (fun e =>
           let error_msg := "エラーが発生しました: " ++ exn_str e in
           ret (None, error_msg, "", None))
  end.

(* ===================================================================== *)
(** * Properties *)
(* ===================================================================== *)

(** ** Confidence tiers *)

Lemma geb_spec (x y : Q) : Py.geb x y = true <-> (y <= x)%Q.
Proof. unfold Py.geb. apply Qle_bool_iff. Qed.

Lemma geb_false (x y : Q) : Py.geb x y = false <-> (x < y)%Q.
Proof.
  rewrite <- not_true_iff_false, geb_spec. split.
  - apply Qnot_le_lt.
  - apply Qlt_not_le.
Qed.

Ltac q_lia := unfold Qle, Qlt in *; simpl in *; lia.

(** C4.  The colour of a box is decided by the confidence and the two
    thresholds alone: the high colour exactly from 80 upward, the medium
    colour exactly from 50 up to but excluding 80, the low colour exactly
    below 50; equal confidences get equal colours.  At the boundaries, 80 is
    high, 79.9 and 50 are medium, 49.9 is low (79.9 and 49.9 both as the
    decimal fractions and as the binary64 values of the literals). *)
Theorem get_bbox_color_tiers :
  (forall c : Q,
      (get_bbox_color c = BBOX_COLOR_HIGH_CONF <-> (80 <= c)%Q) /\
      (get_bbox_color c = BBOX_COLOR_MEDIUM_CONF <-> (50 <= c /\ c < 80)%Q) /\
      (get_bbox_color c = BBOX_COLOR_LOW_CONF <-> (c < 50)%Q)) /\
  (forall c c' : Q, (c == c')%Q -> get_bbox_color c = get_bbox_color c') /\
  get_bbox_color 80 = BBOX_COLOR_HIGH_CONF /\
  get_bbox_color (799 # 10) = BBOX_COLOR_MEDIUM_CONF /\
  get_bbox_color (Py.of_binary64 0x1.3f9999999999ap+6) = BBOX_COLOR_MEDIUM_CONF /\
  get_bbox_color 50 = BBOX_COLOR_MEDIUM_CONF /\
  get_bbox_color (499 # 10) = BBOX_COLOR_LOW_CONF /\
  get_bbox_color (Py.of_binary64 0x1.8f33333333333p+5) = BBOX_COLOR_LOW_CONF.
Proof.
  split; [| split; [| repeat split; vm_compute; reflexivity ]].
  - intro c. unfold get_bbox_color, CONFIDENCE_THRESHOLD_HIGH,
      CONFIDENCE_THRESHOLD_MEDIUM, BBOX_COLOR_HIGH_CONF,
      BBOX_COLOR_MEDIUM_CONF, BBOX_COLOR_LOW_CONF.
    destruct (Py.geb c 80) eqn:Hh; [| destruct (Py.geb c 50) eqn:Hm ].
    + apply geb_spec in Hh.
      split; [ split; [ intros _; exact Hh | reflexivity ] |].
      split; (split; [ discriminate |]).
      * intros [_ H]. exfalso. q_lia.
      * intro H. exfalso. q_lia.
    + apply geb_false in Hh. apply geb_spec in Hm.
      split; [ split; [ discriminate | intro H; exfalso; q_lia ] |].
      split; [ split; [ intros _; split; assumption | reflexivity ] |].
      split; [ discriminate | intro H; exfalso; q_lia ].
    + apply geb_false in Hh. apply geb_false in Hm.
      split; [ split; [ discriminate | intro H; exfalso; q_lia ] |].
      split; [ split; [ discriminate | intros [H _]; exfalso; q_lia ] |].
      split; [ intros _; exact Hm | reflexivity ].
  - intros c c' E. unfold get_bbox_color, Py.geb.
    assert (R : forall y, Qle_bool y c = Qle_bool y c').
    { intro y. apply eq_true_iff_eq. rewrite !Qle_bool_iff, E. reflexivity. }
    rewrite !R. reflexivity.
Qed.

(** ** Formatting of a confidence *)

Lemma append_assoc (a b c : string) : (a ++ b) ++ c = a ++ (b ++ c).
Proof.
  induction a as [| x a IH]; simpl; [ reflexivity | rewrite IH; reflexivity ].
Qed.

Lemma round_half_even_near (x : Q) :
  (0 <= x)%Q ->
  0 <= Py.round_half_even x /\
  (Qabs (x - inject_Z (Py.round_half_even x)) <= 1 # 2)%Q.
Proof.
  destruct x as [n d]. unfold Qle at 1. cbn [Qnum Qden]. intro Hn.
  unfold Py.round_half_even. cbn [Qnum Qden].
  pose proof (Z.div_mod n (Zpos d) ltac:(discriminate)) as E.
  pose proof (Z.mod_pos_bound n (Zpos d) ltac:(reflexivity)) as Hr.
  assert (Hq : 0 <= n / Zpos d) by (apply Z.div_pos; lia).
  set (q := n / Zpos d) in *. set (r := n mod Zpos d) in *.
  assert (B : forall t : Z,
             - Zpos d <= 2 * (n - t * Zpos d) <= Zpos d ->
             (Qabs ((n # d) - inject_Z t) <= 1 # 2)%Q).
  { intros t Ht. apply Qabs_Qle_condition.
    unfold Qle, Qminus, Qplus, Qopp, inject_Z. simpl. split; lia. }
  destruct (2 * r <? Zpos d)%Z eqn:C1; [| destruct (Zpos d <? 2 * r)%Z eqn:C2 ].
  - apply Z.ltb_lt in C1. split; [ exact Hq | apply B; nia ].
  - apply Z.ltb_lt in C2. split; [ lia | apply B; nia ].
  - apply Z.ltb_ge in C1. apply Z.ltb_ge in C2.
    destruct (Z.even q); (split; [ lia | apply B; nia ]).
Qed.

Lemma numeral_from_app (a b : string) (acc : N) :
  Py.numeral_from acc (a ++ b) =
  match Py.numeral_from acc a with
  | Some v => Py.numeral_from v b
  | None => None
  end.
Proof.
  revert acc. induction a as [| c a IH]; intro acc; simpl.
  - reflexivity.
  - destruct (Py.is_digit c); [ apply IH | reflexivity ].
Qed.

Lemma numeral_from_digit (d acc : N) :
  (d < 10)%N -> Py.numeral_from acc (Py.digit d) = Some (10 * acc + d)%N.
Proof.
  intro Hd. unfold Py.digit, Py.numeral_from, Py.is_digit.
  rewrite N_ascii_embedding by lia.
  replace ((48 <=? 48 + d) && (48 + d <=? 57))%N with true.
  - f_equal. lia.
  - symmetry. apply andb_true_iff. split; apply N.leb_le; lia.
Qed.

Lemma numeral_decimal_fuel (fuel : nat) :
  forall n : N, (N.to_nat n < fuel)%nat ->
                Py.numeral (Py.decimal_fuel fuel n) = Some n.
Proof.
  unfold Py.numeral.
  induction fuel as [| fuel IH]; intros n Hn; [ lia |].
  simpl. destruct (n <? 10)%N eqn:C.
  - apply N.ltb_lt in C. rewrite numeral_from_digit by exact C.
    f_equal.
  - apply N.ltb_ge in C. rewrite numeral_from_app.
    assert (Hdiv : (n / 10 < n)%N) by (apply N.div_lt; lia).
    rewrite IH by lia.
    rewrite numeral_from_digit by (apply N.mod_lt; discriminate).
    f_equal. symmetry. apply N.div_mod. discriminate.
Qed.

(** The decimal numeral of [n] is a string of digits that reads as [n]. *)
Lemma numeral_decimal (n : N) : Py.numeral (Py.decimal n) = Some n.
Proof. apply numeral_decimal_fuel. lia. Qed.

(** C3.  [format_confidence] returns "N/A" for a confidence equal to -1.
    For any other confidence it returns: a minus sign when the value is
    negative, the decimal numeral of an integer part, a point, exactly one
    digit, and the percent sign; the number so written is the absolute value
    of the confidence rounded to the nearest tenth.  In particular -1 gives
    "N/A" and 83.456 (as the decimal fraction and as the binary64 value of
    the literal) gives "83.5%". *)
Theorem format_confidence_rendering :
  (forall c : Q, (c == -1)%Q -> format_confidence c = "N/A") /\
  (forall c : Q, ~ (c == -1)%Q ->
     exists ip fd : N,
       format_confidence c =
         Py.sign c ++ Py.decimal ip ++ "." ++ Py.digit fd ++ "%" /\
       Py.numeral (Py.decimal ip) = Some ip /\
       (fd < 10)%N /\
       (Qabs (Qabs c - (inject_Z (Z.of_N ip) + inject_Z (Z.of_N fd) / 10))
        <= 1 # 20)%Q) /\
  format_confidence (-1) = "N/A" /\
  format_confidence (83456 # 1000) = "83.5%" /\
  format_confidence (Py.of_binary64 0x1.4dd2f1a9fbe77p+6) = "83.5%".
Proof.
  split; [| split; [| repeat split; vm_compute; reflexivity ]].
  - intros c E. unfold format_confidence, Py.eqb.
    apply Qeq_bool_iff in E. rewrite E. reflexivity.
  - intros c NE. unfold format_confidence, Py.eqb.
    destruct (Qeq_bool c (-1)) eqn:E;
      [ exfalso; apply NE; apply Qeq_bool_iff; exact E |].
    unfold Py.format_1f.
    assert (Hx : (0 <= Qabs c * 10)%Q).
    { apply Qmult_le_0_compat; [ apply Qabs_nonneg | discriminate ]. }
    destruct (round_half_even_near _ Hx) as [Ht Hnear].
    set (t := Py.round_half_even (Qabs c * 10)) in *.
    pose proof (Z.mod_pos_bound t 10 ltac:(reflexivity)) as Hm.
    pose proof (Z.div_mod t 10 ltac:(discriminate)) as Hdm.
    assert (Hd : 0 <= t / 10) by (apply Z.div_pos; lia).
    exists (Z.to_N (t / 10)), (Z.to_N (t mod 10)).
    split; [| split; [ apply numeral_decimal | split; [ lia |] ] ].
    + rewrite !append_assoc. reflexivity.
    + rewrite !Z2N.id by lia.
      apply Qabs_Qle_condition in Hnear. apply Qabs_Qle_condition.
      assert (Et : (inject_Z (t / 10) + inject_Z (t mod 10) / 10
                    == inject_Z t / 10)%Q).
      { rewrite Hdm at 3. rewrite inject_Z_plus, inject_Z_mult. field. }
      rewrite Et. destruct Hnear as [L U].
      split.
      * apply Qmult_le_r with (z := 10%Q); [ reflexivity |].
        setoid_replace ((Qabs c - inject_Z t / 10) * 10)%Q
          with (Qabs c * 10 - inject_Z t)%Q by field.
        apply Qle_trans with (y := (- (1 # 2))%Q); [ discriminate | exact L ].
      * apply Qmult_le_r with (z := 10%Q); [ reflexivity |].
        setoid_replace ((Qabs c - inject_Z t / 10) * 10)%Q
          with (Qabs c * 10 - inject_Z t)%Q by field.
        apply Qle_trans with (y := (1 # 2)%Q); [ exact U | discriminate ].
Qed.

(** ** Rows and columns of the OCR data *)

(** In aligned columns every position below the number of words holds a
    word record, whose fields are the entries of the columns there. *)
Lemma zip_records_index (ts : list string) :
  forall (cs : list Q) (xs ys ws hs : list Z) (i : nat),
    List.length cs = List.length ts -> List.length xs = List.length ts ->
    List.length ys = List.length ts -> List.length ws = List.length ts ->
    List.length hs = List.length ts -> (i < List.length ts)%nat ->
    exists r : word_record,
      nth_error (zip_records ts cs xs ys ws hs) i = Some r /\
      index ts i = ok (w_text r) /\ index cs i = ok (w_conf r) /\
      index xs i = ok (w_left r) /\ index ys i = ok (w_top r) /\
      index ws i = ok (w_width r) /\ index hs i = ok (w_height r).
Proof.
  induction ts as [| t ts IH];
    intros [| c cs] [| x xs] [| y ys] [| w ws] [| h hs] i;
    simpl; intros Hc Hx Hy Hw Hh Hi; try discriminate; try lia.
  destruct i as [| i].
  - eexists. repeat split.
  - destruct (IH cs xs ys ws hs i) as (r & Hr & Hfields); try lia.
    exists r. split; [ exact Hr | exact Hfields ].
Qed.

Lemma records_index (d : ocr_data) (i : nat) :
  aligned d -> (i < List.length (text d))%nat ->
  exists r : word_record,
    nth_error (records d) i = Some r /\
    index (text d) i = ok (w_text r) /\ index (conf d) i = ok (w_conf r) /\
    index (left d) i = ok (w_left r) /\ index (top d) i = ok (w_top r) /\
    index (width d) i = ok (w_width r) /\
    index (height d) i = ok (w_height r).
Proof.
  intros (Hc & Hx & Hy & Hw & Hh) Hi.
  apply zip_records_index; assumption.
Qed.

Lemma zip_records_length (ts : list string) :
  forall (cs : list Q) (xs ys ws hs : list Z),
    List.length cs = List.length ts -> List.length xs = List.length ts ->
    List.length ys = List.length ts -> List.length ws = List.length ts ->
    List.length hs = List.length ts ->
    List.length (zip_records ts cs xs ys ws hs) = List.length ts.
Proof.
  induction ts as [| t ts IH];
    intros [| c cs] [| x xs] [| y ys] [| w ws] [| h hs];
    simpl; intros Hc Hx Hy Hw Hh; try discriminate; try reflexivity.
  f_equal. apply IH; lia.
Qed.




Lemma skipn_nth_error {A : Type} (l : list A) :
  forall (k : nat) (a : A),
    nth_error l k = Some a -> skipn k l = a :: skipn (S k) l.
Proof.
  induction l as [| x l IH]; intros [| k] a H; simpl in *; try discriminate.
  - injection H as ->. reflexivity.
  - apply IH. exact H.
Qed.

(** ** The detail table *)

Lemma results_body_step (d : ocr_data) (i : nat) (r : word_record)
  (results : list table_row) :
  index (text d) i = ok (w_text r) -> index (conf d) i = ok (w_conf r) ->
  index (left d) i = ok (w_left r) -> index (top d) i = ok (w_top r) ->
  index (width d) i = ok (w_width r) ->
  index (height d) i = ok (w_height r) ->
  results_body d results i =
  ok (results ++ map row_of_record (filter has_text [r]))%list.
Proof.
  intros Ht Hc Hx Hy Hw Hh. unfold results_body.
  rewrite Ht. cbn [rbind ok]. unfold filter, has_text.
  destruct (Py.truthy (Py.strip (w_text r))); cbn [negb].
  - rewrite Hc, Hx, Hy, Hw, Hh. reflexivity.
  - cbn [map]. rewrite app_nil_r. reflexivity.
Qed.

Lemma results_loop (d : ocr_data) :
  aligned d ->
  forall (m k : nat) (results : list table_row),
    (k + m = List.length (text d))%nat ->
    for_each (results_body d) (seq k m) results =
    ok (results ++ map row_of_record (filter has_text (skipn k (records d))))%list.
Proof.
  intro Ha. induction m as [| m IH]; intros k results Hk.
  - cbn [seq for_each].
    assert (L : List.length (records d) = List.length (text d)).
    { destruct Ha as (Hc & Hx & Hy & Hw & Hh).
      apply zip_records_length; assumption. }
    rewrite skipn_all2 by lia. cbn [filter map]. rewrite app_nil_r.
    reflexivity.
  - cbn [seq for_each].
    destruct (records_index d k Ha ltac:(lia))
      as (r & Hr & Ht & Hc & Hx & Hy & Hw & Hh).
    rewrite (results_body_step d k r results Ht Hc Hx Hy Hw Hh).
    cbn [rbind ok]. rewrite IH by lia.
    rewrite (skipn_nth_error _ _ _ Hr).
    change (r :: skipn (S k) (records d))
      with ([r] ++ skipn (S k) (records d))%list.
    rewrite filter_app, map_app, app_assoc. reflexivity.
Qed.

(** C7.  On a result set (aligned columns), [create_results_dataframe]
    returns the table whose rows are, in the order of the result set, the
    word records with a non-empty trimmed text: each row holds the trimmed
    text, the formatted confidence and the four box coordinates of its
    record.  No row has an empty text, and the number of rows is the number
    of records with a non-empty trimmed text. *)
Theorem create_results_dataframe_rows :
  forall d : ocr_data,
    aligned d ->
    exists table : DataFrame,
      create_results_dataframe d = ok table /\
      table = map row_of_record (filter has_text (records d)) /\
      Forall (fun row => col_word row <> "") table /\
      List.length table = count_occ bool_dec (map has_text (records d)) true.
Proof.
  intros d Ha. eexists. split; [| split; [ reflexivity | split ] ].
  - unfold create_results_dataframe, range.
    rewrite (results_loop d Ha (List.length (text d)) 0 [] eq_refl).
    reflexivity.
  - apply Forall_forall. intros row Hrow.
    apply in_map_iff in Hrow. destruct Hrow as (r & <- & Hr).
    apply filter_In in Hr. destruct Hr as [_ Hr].
    unfold has_text, Py.truthy in Hr. cbn [row_of_record col_word].
    intro E. rewrite E in Hr. discriminate Hr.
  - rewrite length_map.
    induction (records d) as [| r l IH]; [ reflexivity |].
    cbn [filter map count_occ].
    destruct (has_text r); cbn [List.length];
      destruct (bool_dec _ _) as [E | E]; try discriminate E;
      try (exfalso; apply E; reflexivity); rewrite IH; reflexivity.
Qed.

(** ** The average confidence *)

(** Truncation yields [-1] exactly on the numbers from -1 down to, but
    excluding, -2: on a number outside the open interval between -2 and -1
    the test [int(conf) == -1] is the test [conf == -1]. *)
Lemma int_sentinel (c : Q) :
  exact_sentinel c -> (Py.int c =? -1)%Z = Qeq_bool c (-1).
Proof.
  destruct c as [n p]. unfold exact_sentinel, Py.int, Qeq_bool, Qlt.
  cbn [Qnum Qden]. intro Hc.
  assert (Hn : n <= -2 * Zpos p \/ n = - Zpos p \/ (- Zpos p < n < 0)
               \/ 0 <= n) by lia.
  destruct Hn as [Hn | [-> | [Hn | Hn]]].
  - replace n with (- (- n)) by lia.
    rewrite Z.quot_opp_l by discriminate.
    pose proof (Z.quot_le_lower_bound (- n) (Zpos p) 2
                  ltac:(reflexivity) ltac:(lia)) as Hq.
    transitivity false; [ apply Z.eqb_neq; lia |].
    symmetry. apply Z.eqb_neq. lia.
  - rewrite Z.quot_opp_l by discriminate.
    rewrite Z.quot_same by discriminate.
    symmetry. apply Z.eqb_eq. lia.
  - replace n with (- (- n)) by lia.
    rewrite Z.quot_opp_l by discriminate.
    rewrite Z.quot_small by lia.
    symmetry. apply Z.eqb_neq. lia.
  - pose proof (Z.quot_pos n (Zpos p) Hn ltac:(reflexivity)) as Hq.
    transitivity false; [ apply Z.eqb_neq; lia |].
    symmetry. apply Z.eqb_neq. lia.
Qed.

Lemma conf_in_range_exact (c : Q) : conf_in_range c -> exact_sentinel c.
Proof.
  unfold conf_in_range, exact_sentinel. intros [Hlo _] [_ Hhi].
  exact (Qlt_not_le _ _ Hhi Hlo).
Qed.

Lemma int_of_sentinel (c : Q) : (c == -1)%Q -> Py.int c = -1.
Proof.
  intro E. apply Z.eqb_eq. rewrite int_sentinel.
  - apply Qeq_bool_iff. exact E.
  - unfold exact_sentinel. rewrite E. intros [_ H]. discriminate H.
Qed.


(** ** Binary64 arithmetic *)

Section Binary64.

Local Open Scope Q_scope.

Lemma two_gt_1 : 1 < 2. Proof. reflexivity. Qed.
Lemma two_neq_0 : ~ 2 == 0. Proof. discriminate. Qed.

Lemma pow2_pos (k : Z) : 0 < 2 ^ k.
Proof. apply Qpower_0_lt. reflexivity. Qed.

Lemma pow2_inject (k : Z) : (0 <= k)%Z -> 2 ^ k == inject_Z (2 ^ k).
Proof. intro H. symmetry. apply (Zpower_Qpower 2 k H). Qed.

Lemma quotient_between_powers (x : Q) :
  0 < x ->
  let k := (Z.log2 (Qnum x) - Z.log2 (Zpos (Qden x)))%Z in
  2 ^ (k - 1) < x /\ x < 2 ^ (k + 1).
Proof.
  destruct x as [n d]. unfold Qlt at 1. cbn [Qnum Qden]. intro Hn.
  assert (Hn' : (0 < n)%Z) by lia.
  pose proof (Z.log2_spec n Hn') as [Ln Un].
  pose proof (Z.log2_spec (Zpos d) ltac:(reflexivity)) as [Ld Ud].
  pose proof (Z.log2_nonneg n) as Hln.
  pose proof (Z.log2_nonneg (Zpos d)) as Hld.
  set (a := Z.log2 n) in *. set (b := Z.log2 (Zpos d)) in *.
  cbv zeta.
  assert (Hd : 0 < inject_Z (Zpos d)) by reflexivity.
  rewrite (Qmake_Qdiv n d).
  split.
  - apply Qlt_shift_div_l; [ exact Hd |].
    apply Qlt_le_trans with (y := 2 ^ (a - b - 1) * 2 ^ (b + 1)).
    + apply Qmult_lt_l; [ apply pow2_pos |].
      rewrite pow2_inject by lia. rewrite <- Zlt_Qlt.
      replace (Z.succ b) with (b + 1)%Z in Ud by lia. exact Ud.
    + rewrite <- Qpower_plus by exact two_neq_0.
      replace (a - b - 1 + (b + 1))%Z with a by lia.
      rewrite pow2_inject by lia. rewrite <- Zle_Qle. exact Ln.
  - apply Qlt_shift_div_r; [ exact Hd |].
    apply Qlt_le_trans with (y := 2 ^ (a + 1)).
    + rewrite pow2_inject by lia. rewrite <- Zlt_Qlt.
      replace (Z.succ a) with (a + 1)%Z in Un by lia. exact Un.
    + replace (a + 1)%Z with (a - b + 1 + b)%Z by lia.
      rewrite Qpower_plus by exact two_neq_0.
      apply Qmult_le_l; [ apply pow2_pos |].
      rewrite pow2_inject by lia. rewrite <- Zle_Qle. exact Ld.
Qed.

Lemma ilog2_spec (x : Q) :
  0 < x -> 2 ^ Py.ilog2 x <= x /\ x < 2 ^ (Py.ilog2 x + 1).
Proof.
  intro Hx. destruct (quotient_between_powers x Hx) as [L U].
  unfold Py.ilog2.
  set (k := (Z.log2 (Qnum x) - Z.log2 (Zpos (Qden x)))%Z) in *.
  destruct (Qle_bool (2 ^ k) x) eqn:E.
  - apply Qle_bool_iff in E. split; [ exact E | exact U ].
  - split; [ apply Qlt_le_weak; exact L |].
    replace (k - 1 + 1)%Z with k by lia.
    apply Qnot_le_lt. intro H. apply Qle_bool_iff in H.
    rewrite H in E. discriminate E.
Qed.

Lemma ilog2_unique (x : Q) (a b : Z) :
  2 ^ a <= x -> x < 2 ^ (a + 1) -> 2 ^ b <= x -> x < 2 ^ (b + 1) -> a = b.
Proof.
  intros La Ua Lb Ub.
  assert (H1 : (a < b + 1)%Z).
  { apply (Qpower_lt_compat_l_inv 2); [| exact two_gt_1 ].
    eapply Qle_lt_trans; eassumption. }
  assert (H2 : (b < a + 1)%Z).
  { apply (Qpower_lt_compat_l_inv 2); [| exact two_gt_1 ].
    eapply Qle_lt_trans; eassumption. }
  lia.
Qed.

Lemma ilog2_comp (x y : Q) : 0 < x -> x == y -> Py.ilog2 x = Py.ilog2 y.
Proof.
  intros Hx E.
  assert (Hy : 0 < y) by (rewrite <- E; exact Hx).
  destruct (ilog2_spec x Hx) as [Lx Ux]. destruct (ilog2_spec y Hy) as [Ly Uy].
  assert (Lx' : 2 ^ Py.ilog2 x <= y)
    by (eapply Qle_trans; [ exact Lx | rewrite E; apply Qle_refl ]).
  assert (Ux' : y < 2 ^ (Py.ilog2 x + 1))
    by (eapply Qle_lt_trans; [| exact Ux ]; rewrite E; apply Qle_refl).
  exact (ilog2_unique y _ _ Lx' Ux' Ly Uy).
Qed.

Lemma round_half_even_le (y : Q) (K : Z) :
  y <= inject_Z K -> (Py.round_half_even y <= K)%Z.
Proof.
  destruct y as [n d]. unfold Qle, inject_Z, Py.round_half_even.
  cbn [Qnum Qden]. intro H.
  pose proof (Z.div_mod n (Zpos d) ltac:(discriminate)) as E.
  pose proof (Z.mod_pos_bound n (Zpos d) ltac:(reflexivity)) as Hr.
  set (q := (n / Zpos d)%Z) in *. set (r := (n mod Zpos d)%Z) in *.
  assert (Hq : (q <= K)%Z) by nia.
  destruct (2 * r <? Zpos d)%Z eqn:C1; [ exact Hq |].
  apply Z.ltb_ge in C1.
  assert (Hq' : (q + 1 <= K)%Z) by nia.
  destruct (Zpos d <? 2 * r)%Z; [ exact Hq' |].
  destruct (Z.even q); [ exact Hq | exact Hq' ].
Qed.

Lemma round_half_even_comp (x y : Q) :
  x == y -> Py.round_half_even x = Py.round_half_even y.
Proof.
  destruct x as [n d], y as [n' d']. unfold Qeq, Py.round_half_even.
  cbn [Qnum Qden]. intro E.
  assert (Eq : (n / Zpos d = n' / Zpos d')%Z).
  { change (n / Zpos d)%Z with (Qfloor (n # d)).
    change (n' / Zpos d')%Z with (Qfloor (n' # d')).
    apply Qfloor_comp. exact E. }
  pose proof (Z.div_mod n (Zpos d) ltac:(discriminate)) as E1.
  pose proof (Z.div_mod n' (Zpos d') ltac:(discriminate)) as E2.
  pose proof (Z.mod_pos_bound n (Zpos d) ltac:(reflexivity)) as Hr.
  pose proof (Z.mod_pos_bound n' (Zpos d') ltac:(reflexivity)) as Hr'.
  rewrite <- Eq in E2. rewrite <- Eq.
  set (q := (n / Zpos d)%Z) in *.
  set (r := (n mod Zpos d)%Z) in *. set (r' := (n' mod Zpos d')%Z) in *.
  assert (Er : (r * Zpos d' = r' * Zpos d)%Z) by nia.
  assert (C1 : (2 * r <? Zpos d)%Z = (2 * r' <? Zpos d')%Z).
  { apply eq_true_iff_eq. rewrite !Z.ltb_lt. split; intro H; nia. }
  assert (C2 : (Zpos d <? 2 * r)%Z = (Zpos d' <? 2 * r')%Z).
  { apply eq_true_iff_eq. rewrite !Z.ltb_lt. split; intro H; nia. }
  rewrite C1, C2. reflexivity.
Qed.

Lemma round_half_even_Z (z : Z) : Py.round_half_even (inject_Z z) = z.
Proof.
  unfold Py.round_half_even, inject_Z. cbn [Qnum Qden].
  rewrite Z.div_1_r, Z.mod_1_r. reflexivity.
Qed.

Lemma round_half_even_nonneg (y : Q) : 0 <= y -> (0 <= Py.round_half_even y)%Z.
Proof.
  destruct y as [n d]. unfold Qle, Py.round_half_even. cbn [Qnum Qden].
  intro H.
  assert (Hq : (0 <= n / Zpos d)%Z) by (apply Z.div_pos; lia).
  destruct (2 * (n mod Zpos d) <? Zpos d)%Z; [ exact Hq |].
  destruct (Zpos d <? 2 * (n mod Zpos d))%Z; [ lia |].
  destruct (Z.even (n / Zpos d)); lia.
Qed.

Lemma Qabs_pos_nonzero (x : Q) : ~ x == 0 -> 0 < Qabs x.
Proof.
  intro Hx. destruct (Qlt_le_dec 0 (Qabs x)) as [H | H]; [ exact H |].
  exfalso. apply Hx.
  assert (A : Qabs x == 0)
    by (apply Qle_antisym; [ exact H | apply Qabs_nonneg ]).
  apply Qabs_Qle_condition in H. destruct H as [H1 H2].
  apply Qle_antisym; assumption.
Qed.

Lemma exponent_comp (x y : Q) : ~ x == 0 -> x == y -> Py.exponent x = Py.exponent y.
Proof.
  intros Hx E. unfold Py.exponent. f_equal. f_equal.
  apply ilog2_comp; [ apply Qabs_pos_nonzero; exact Hx | rewrite E; reflexivity ].
Qed.

(** Equal numbers are rounded to the same number, in the same
    representation. *)
Lemma round64_comp (x y : Q) : x == y -> Py.round64 x = Py.round64 y.
Proof.
  intro E. unfold Py.round64.
  assert (E0 : Qeq_bool x 0 = Qeq_bool y 0).
  { apply eq_true_iff_eq. rewrite !Qeq_bool_iff, E. reflexivity. }
  rewrite <- E0. destruct (Qeq_bool x 0) eqn:Z0; [ reflexivity |].
  assert (Hx : ~ x == 0).
  { intro H. apply Qeq_bool_iff in H. rewrite H in Z0. discriminate Z0. }
  cbv zeta. rewrite <- (exponent_comp x y Hx E).
  assert (Es : Qle_bool 0 x = Qle_bool 0 y).
  { apply eq_true_iff_eq. rewrite !Qle_bool_iff, E. reflexivity. }
  rewrite <- Es.
  rewrite (round_half_even_comp (Qabs x / 2 ^ Py.exponent x)
             (Qabs y / 2 ^ Py.exponent x))
    by (unfold Qdiv; apply Qmult_comp;
        [ apply Qabs_wd; exact E | reflexivity ]).
  reflexivity.
Qed.

Lemma round64_nonneg (x : Q) : 0 <= x -> 0 <= Py.round64 x.
Proof.
  intro Hx. unfold Py.round64.
  destruct (Qeq_bool x 0); [ apply Qle_refl |].
  cbv zeta. apply Qle_bool_iff in Hx. rewrite Hx.
  apply Qmult_le_0_compat.
  - change 0 with (inject_Z 0). rewrite <- Zle_Qle.
    apply round_half_even_nonneg.
    apply Qle_shift_div_l; [ apply pow2_pos |].
    rewrite Qmult_0_l. apply Qabs_nonneg.
  - apply Qlt_le_weak, pow2_pos.
Qed.

(** A positive number below 2^53 has an exponent that is not positive. *)
Lemma exponent_small (x : Q) :
  0 < x -> x < inject_Z (2 ^ 53) -> (Py.exponent x <= 0)%Z.
Proof.
  intros Hpos Hlt. unfold Py.exponent.
  assert (Ea : Qabs x == x) by (apply Qabs_pos; apply Qlt_le_weak, Hpos).
  rewrite (ilog2_comp (Qabs x) x)
    by first [ exact Ea | rewrite Ea; exact Hpos ].
  destruct (ilog2_spec x Hpos) as [L _].
  assert (H : (Py.ilog2 x < 53)%Z).
  { apply (Qpower_lt_compat_l_inv 2); [| exact two_gt_1 ].
    eapply Qle_lt_trans; [ exact L |].
    rewrite (pow2_inject 53) by lia. exact Hlt. }
  lia.
Qed.

Lemma pow2_neg_inject (e : Z) :
  (e <= 0)%Z -> / 2 ^ e == inject_Z (2 ^ (- e)).
Proof.
  intro He. rewrite <- Qpower_opp. apply pow2_inject. lia.
Qed.

(** Rounding does not cross an integer below 2^53. *)
Lemma round64_le_int (x : Q) (N : Z) :
  0 <= x -> x <= inject_Z N -> (N < 2 ^ 53)%Z -> Py.round64 x <= inject_Z N.
Proof.
  intros Hx HN Hb. unfold Py.round64.
  destruct (Qeq_bool x 0) eqn:Z0.
  - apply Qle_trans with (y := x); [ exact Hx | exact HN ].
  - assert (Hnz : ~ x == 0).
    { intro H. apply Qeq_bool_iff in H. rewrite H in Z0. discriminate Z0. }
    assert (Hpos : 0 < x).
    { apply Qle_lt_or_eq in Hx. destruct Hx as [H | H]; [ exact H |].
      exfalso. apply Hnz. symmetry. exact H. }
    cbv zeta. pose proof Hx as Hs. apply Qle_bool_iff in Hs. rewrite Hs.
    assert (He : (Py.exponent x <= 0)%Z).
    { apply exponent_small; [ exact Hpos |].
      eapply Qle_lt_trans; [ exact HN |]. rewrite <- Zlt_Qlt. exact Hb. }
    set (e := Py.exponent x) in *.
    assert (Hm : (Py.round_half_even (Qabs x / 2 ^ e) <= N * 2 ^ (- e))%Z).
    { apply round_half_even_le.
      rewrite (Qabs_pos x Hx). unfold Qdiv.
      rewrite (pow2_neg_inject e He), inject_Z_mult.
      apply Qmult_le_compat_r; [ exact HN |].
      rewrite <- (pow2_inject (- e)) by lia.
      apply Qlt_le_weak, pow2_pos. }
    rewrite Zle_Qle, inject_Z_mult in Hm.
    rewrite <- (pow2_neg_inject e He) in Hm.
    apply Qle_trans with (y := inject_Z N * / 2 ^ e * 2 ^ e).
    + apply Qmult_le_compat_r; [ exact Hm | apply Qlt_le_weak, pow2_pos ].
    + rewrite <- Qmult_assoc.
      rewrite (Qmult_comm (/ 2 ^ e)), Qmult_inv_r, Qmult_1_r;
        [ apply Qle_refl |].
      intro H. pose proof (pow2_pos e) as P. rewrite H in P. discriminate P.
Qed.

(** A natural number below 2^53 is a binary64 number. *)
Lemma round64_int (x : Q) (z : Z) :
  x == inject_Z z -> (0 <= z < 2 ^ 53)%Z -> Py.round64 x == inject_Z z.
Proof.
  intros E [Hz Hb]. rewrite (round64_comp x (inject_Z z) E).
  unfold Py.round64.
  destruct (Qeq_bool (inject_Z z) 0) eqn:Z0.
  - apply Qeq_bool_iff in Z0. symmetry. exact Z0.
  - assert (Hnz : ~ inject_Z z == 0).
    { intro H. apply Qeq_bool_iff in H. rewrite H in Z0. discriminate Z0. }
    assert (Hx : 0 <= inject_Z z) by (change 0 with (inject_Z 0);
                                       rewrite <- Zle_Qle; exact Hz).
    assert (Hpos : 0 < inject_Z z).
    { apply Qle_lt_or_eq in Hx. destruct Hx as [H | H]; [ exact H |].
      exfalso. apply Hnz. symmetry. exact H. }
    cbv zeta. pose proof Hx as Hs. apply Qle_bool_iff in Hs. rewrite Hs.
    assert (He : (Py.exponent (inject_Z z) <= 0)%Z).
    { apply exponent_small; [ exact Hpos |]. rewrite <- Zlt_Qlt. exact Hb. }
    set (e := Py.exponent (inject_Z z)) in *.
    rewrite (round_half_even_comp (Qabs (inject_Z z) / 2 ^ e)
               (inject_Z (z * 2 ^ (- e)))).
    + rewrite round_half_even_Z, inject_Z_mult.
      rewrite <- (pow2_neg_inject e He).
      rewrite <- Qmult_assoc.
      rewrite (Qmult_comm (/ 2 ^ e)), Qmult_inv_r, Qmult_1_r;
        [ reflexivity |].
      intro H. pose proof (pow2_pos e) as P. rewrite H in P. discriminate P.
    + rewrite (Qabs_pos _ Hx). unfold Qdiv.
      rewrite (pow2_neg_inject e He), inject_Z_mult. reflexivity.
Qed.

(** Rounding is symmetric. *)
Lemma round64_opp (x : Q) : Py.round64 (- x) == - Py.round64 x.
Proof.
  unfold Py.round64.
  destruct (Qeq_bool x 0) eqn:Z0.
  - assert (E : Qeq_bool (- x) 0 = true).
    { apply Qeq_bool_iff. apply Qeq_bool_iff in Z0. rewrite Z0. reflexivity. }
    rewrite E. reflexivity.
  - assert (Hnz : ~ x == 0).
    { intro H. apply Qeq_bool_iff in H. rewrite H in Z0. discriminate Z0. }
    assert (E : Qeq_bool (- x) 0 = false).
    { destruct (Qeq_bool (- x) 0) eqn:E'; [| reflexivity ].
      exfalso. apply Hnz. apply Qeq_bool_iff in E'.
      rewrite <- (Qopp_involutive x), E'. reflexivity. }
    rewrite E. cbv zeta.
    assert (Ee : Py.exponent (- x) = Py.exponent x).
    { unfold Py.exponent. f_equal. f_equal.
      apply ilog2_comp; [| apply Qabs_opp ].
      rewrite Qabs_opp. apply Qabs_pos_nonzero. exact Hnz. }
    rewrite Ee.
    rewrite (round_half_even_comp (Qabs (- x) / 2 ^ Py.exponent x)
               (Qabs x / 2 ^ Py.exponent x))
      by (rewrite Qabs_opp; reflexivity).
    destruct (Qle_bool 0 x) eqn:S1; destruct (Qle_bool 0 (- x)) eqn:S2.
    + exfalso. apply Hnz. apply Qle_bool_iff in S1, S2.
      apply Qle_antisym; [| exact S1 ].
      apply Qopp_le_compat in S2. rewrite Qopp_involutive in S2. exact S2.
    + reflexivity.
    + rewrite Qopp_involutive. reflexivity.
    + exfalso.
      destruct (Qlt_le_dec x 0) as [H | H].
      * assert (H' : 0 <= - x).
        { apply Qlt_le_weak in H. apply Qopp_le_compat in H. exact H. }
        apply Qle_bool_iff in H'. rewrite H' in S2. discriminate S2.
      * apply Qle_bool_iff in H. rewrite H in S1. discriminate S1.
Qed.


(** Rounding does not cross an integer below 2^53, on either side of 0. *)
Lemma round64_abs_le_int (x : Q) (N : Z) :
  Qabs x <= inject_Z N -> (N < 2 ^ 53)%Z ->
  Qabs (Py.round64 x) <= inject_Z N.
Proof.
  intros HN Hb. destruct (Qlt_le_dec x 0) as [Hneg | Hpos].
  - assert (Hx : 0 <= - x).
    { apply Qlt_le_weak in Hneg. apply Qopp_le_compat in Hneg. exact Hneg. }
    assert (E : Py.round64 x == - Py.round64 (- x))
      by (rewrite round64_opp, Qopp_involutive; reflexivity).
    rewrite E, Qabs_opp.
    rewrite Qabs_pos by (apply round64_nonneg; exact Hx).
    apply round64_le_int; [ exact Hx | | exact Hb ].
    rewrite <- (Qabs_neg x) by (apply Qlt_le_weak; exact Hneg). exact HN.
  - rewrite Qabs_pos by (apply round64_nonneg; exact Hpos).
    apply round64_le_int; [ exact Hpos | | exact Hb ].
    rewrite <- (Qabs_pos x Hpos). exact HN.
Qed.


(** The error of a rounding: at most the fraction [2 ^ -53] of the number,
    or half the spacing of the subnormal numbers. *)
Lemma round64_error_nonneg (x : Q) :
  0 <= x ->
  Qabs (Py.round64 x - x) <= x * 2 ^ (-53) + 2 ^ (-1075).
Proof.
  intro Hx.
  assert (Hrhs : 0 <= x * 2 ^ (-53) + 2 ^ (-1075)).
  { apply Qle_trans with (y := 0 + 0); [ apply Qle_refl |].
    apply Qplus_le_compat; [| apply Qlt_le_weak, pow2_pos ].
    apply Qmult_le_0_compat; [ exact Hx | apply Qlt_le_weak, pow2_pos ]. }
  unfold Py.round64. destruct (Qeq_bool x 0) eqn:Z0.
  - apply Qeq_bool_iff in Z0.
    assert (E : Qabs (0 - x) == 0) by (rewrite Z0; reflexivity).
    rewrite E. exact Hrhs.
  - assert (Hnz : ~ x == 0).
    { intro H. apply Qeq_bool_iff in H. rewrite H in Z0. discriminate Z0. }
    assert (Hpos : 0 < x).
    { apply Qle_lt_or_eq in Hx. destruct Hx as [H | H]; [ exact H |].
      exfalso. apply Hnz. symmetry. exact H. }
    cbv zeta. pose proof Hx as Hs. apply Qle_bool_iff in Hs. rewrite Hs.
    set (e := Py.exponent x).
    assert (Hy : 0 <= Qabs x / 2 ^ e).
    { apply Qle_shift_div_l; [ apply pow2_pos |].
      rewrite Qmult_0_l. apply Qabs_nonneg. }
    destruct (round_half_even_near _ Hy) as [_ Hnear].
    set (m := Py.round_half_even (Qabs x / 2 ^ e)) in *.
    assert (Hp : ~ 2 ^ e == 0).
    { intro H. pose proof (pow2_pos e) as P. rewrite H in P. discriminate P. }
    assert (E : inject_Z m * 2 ^ e - x
                == - ((Qabs x / 2 ^ e - inject_Z m) * 2 ^ e)).
    { rewrite (Qabs_pos x Hx). field. exact Hp. }
    rewrite E, Qabs_opp, Qabs_Qmult.
    rewrite (Qabs_pos (2 ^ e)) by (apply Qlt_le_weak, pow2_pos).
    apply Qle_trans with (y := (1 # 2) * 2 ^ e).
    { apply Qmult_le_compat_r; [ exact Hnear | apply Qlt_le_weak, pow2_pos ]. }
    assert (Ea : Qabs x == x) by (apply Qabs_pos; exact Hx).
    assert (Hl : Py.ilog2 (Qabs x) = Py.ilog2 x).
    { apply ilog2_comp; [ rewrite Ea; exact Hpos | exact Ea ]. }
    unfold e, Py.exponent. rewrite Hl.
    destruct (Z.max_spec (Py.ilog2 x - 52) (-1074)) as [[_ ->] | [_ ->]].
    + apply Qle_trans with (y := 0 + 2 ^ (-1075)).
      * rewrite Qplus_0_l. apply Qle_lteq. right. reflexivity.
      * apply Qplus_le_compat; [| apply Qle_refl ].
        apply Qmult_le_0_compat; [ exact Hx | apply Qlt_le_weak, pow2_pos ].
    + apply Qle_trans with (y := x * 2 ^ (-53) + 0).
      * rewrite Qplus_0_r.
        replace (Py.ilog2 x - 52)%Z with (Py.ilog2 x + (-52))%Z by lia.
        rewrite Qpower_plus by exact two_neq_0.
        destruct (ilog2_spec x Hpos) as [L _].
        apply Qle_trans with (y := 2 ^ Py.ilog2 x * 2 ^ (-53)).
        -- apply Qle_lteq. right.
           assert (Ec : (1 # 2) * 2 ^ (-52) == 2 ^ (-53)) by reflexivity.
           rewrite <- Ec. ring.
        -- apply Qmult_le_compat_r; [ exact L | apply Qlt_le_weak, pow2_pos ].
      * apply Qplus_le_compat; [ apply Qle_refl | apply Qlt_le_weak, pow2_pos ].
Qed.

Lemma round64_error (x : Q) :
  Qabs (Py.round64 x - x) <= Qabs x * 2 ^ (-53) + 2 ^ (-1075).
Proof.
  destruct (Qlt_le_dec x 0) as [Hneg | Hpos].
  - assert (Hx : 0 <= - x).
    { apply Qlt_le_weak in Hneg. apply Qopp_le_compat in Hneg. exact Hneg. }
    pose proof (round64_error_nonneg (- x) Hx) as H.
    rewrite round64_opp in H.
    assert (E : - Py.round64 x - - x == - (Py.round64 x - x)) by ring.
    rewrite E, Qabs_opp in H.
    rewrite (Qabs_neg x) by (apply Qlt_le_weak; exact Hneg). exact H.
  - rewrite (Qabs_pos x Hpos). apply round64_error_nonneg. exact Hpos.
Qed.

(** ** Sums of confidences *)

Lemma length_cons_Z {A : Type} (c : A) (l : list A) :
  Z.of_nat (List.length (c :: l)) = (Z.of_nat (List.length l) + 1)%Z.
Proof. cbn [List.length]. lia. Qed.

(** A rounded sum of non-negative numbers is not negative. *)
Lemma fold_add_nonneg (l : list Q) :
  Forall (fun c => 0 <= c) l ->
  forall a : Q, 0 <= a -> 0 <= fold_left Py.add l a.
Proof.
  induction 1 as [| c l Hc Hl IH]; intros a Ha; cbn [fold_left].
  - exact Ha.
  - apply IH. unfold Py.add. apply round64_nonneg.
    apply Qle_trans with (y := 0 + 0); [ apply Qle_refl |].
    apply Qplus_le_compat; assumption.
Qed.

Lemma add_bound (a c : Q) (K : Z) :
  Qabs a <= inject_Z K -> Qabs c <= 100 -> (K + 100 < 2 ^ 53)%Z ->
  Qabs (a + c) <= inject_Z (K + 100) /\
  Qabs (Py.add a c) <= inject_Z (K + 100).
Proof.
  intros Ha Hc Hb.
  assert (H : Qabs (a + c) <= inject_Z (K + 100)).
  { eapply Qle_trans; [ apply Qabs_triangle |].
    rewrite inject_Z_plus. apply Qplus_le_compat; assumption. }
  split; [ exact H |].
  unfold Py.add. apply round64_abs_le_int; assumption.
Qed.

(** While the bound of the sum is below 2^53, a rounded sum of numbers of
    absolute value at most 100 stays within the bound. *)
Lemma fold_add_bound (l : list Q) :
  Forall (fun c => Qabs c <= 100) l ->
  forall (a : Q) (K : Z),
    Qabs a <= inject_Z K ->
    (K + 100 * Z.of_nat (List.length l) < 2 ^ 53)%Z ->
    Qabs (fold_left Py.add l a)
      <= inject_Z (K + 100 * Z.of_nat (List.length l)).
Proof.
  induction 1 as [| c l Hc Hl IH]; intros a K Ha Hb.
  - cbn [fold_left List.length]. replace (K + 100 * Z.of_nat 0)%Z with K by lia.
    exact Ha.
  - cbn [fold_left]. rewrite length_cons_Z in *.
    destruct (add_bound a c K Ha Hc ltac:(lia)) as [_ Ha'].
    replace (K + 100 * (Z.of_nat (List.length l) + 1))%Z
      with (K + 100 + 100 * Z.of_nat (List.length l))%Z by lia.
    apply IH; [ exact Ha' | lia ].
Qed.

(** The distance of a rounded sum to the exact sum: one rounding error for
    each addition. *)
Lemma fold_add_error (B : Z) (l : list Q) :
  Forall (fun c => Qabs c <= 100) l ->
  forall (a : Q) (K : Z),
    Qabs a <= inject_Z K ->
    (K + 100 * Z.of_nat (List.length l) <= B)%Z -> (B < 2 ^ 53)%Z ->
    Qabs (fold_left Py.add l a - (a + fold_right Qplus 0 l))
      <= inject_Z (Z.of_nat (List.length l))
         * (inject_Z B * 2 ^ (-53) + 2 ^ (-1075)).
Proof.
  induction 1 as [| c l Hc Hl IH]; intros a K Ha HB Hb.
  - cbn [fold_left fold_right List.length].
    assert (E : a - (a + 0) == 0) by ring.
    rewrite E. rewrite Qmult_0_l. apply Qle_refl.
  - cbn [fold_left fold_right]. rewrite length_cons_Z in *.
    destruct (add_bound a c K Ha Hc ltac:(lia)) as [Hs Ha'].
    pose proof (IH (Py.add a c) (K + 100)%Z Ha' ltac:(lia) Hb) as H1.
    pose proof (round64_error (a + c)) as H2. fold (Py.add a c) in H2.
    set (D := inject_Z B * 2 ^ (-53) + 2 ^ (-1075)) in *.
    assert (H3 : Qabs (Py.add a c - (a + c)) <= D).
    { eapply Qle_trans; [ exact H2 |]. unfold D.
      apply Qplus_le_compat; [| apply Qle_refl ].
      apply Qmult_le_compat_r; [| apply Qlt_le_weak, pow2_pos ].
      eapply Qle_trans; [ exact Hs |]. rewrite <- Zle_Qle. lia. }
    set (s := fold_left Py.add l (Py.add a c)) in *.
    set (t := fold_right Qplus 0 l) in *.
    assert (E : s - (a + (c + t))
                == (s - (Py.add a c + t)) + (Py.add a c - (a + c))) by ring.
    rewrite E. eapply Qle_trans; [ apply Qabs_triangle |].
    rewrite inject_Z_plus.
    assert (E' : (inject_Z (Z.of_nat (List.length l)) + inject_Z 1) * D
                 == inject_Z (Z.of_nat (List.length l)) * D + D) by ring.
    rewrite E'. apply Qplus_le_compat; assumption.
Qed.


Lemma fold_right_integer (l : list Q) :
  Forall (fun c => exists z : Z, c == inject_Z z) l ->
  exists z : Z, fold_right Qplus 0 l == inject_Z z.
Proof.
  induction 1 as [| c l [zc Ec] Hl [z Ez]]; cbn [fold_right].
  - exists 0%Z. reflexivity.
  - exists (zc + z)%Z. rewrite Ec, Ez, inject_Z_plus. reflexivity.
Qed.

(** ** Averages of confidences *)

Lemma len_exact {A : Type} (l : list A) :
  (Z.of_nat (List.length l) < 2 ^ 53)%Z ->
  Py.len l == inject_Z (Z.of_nat (List.length l)).
Proof.
  intro H. unfold Py.len. apply round64_int; [ reflexivity | lia ].
Qed.

Lemma len_nonneg {A : Type} (l : list A) : 0 <= Py.len l.
Proof.
  unfold Py.len. apply round64_nonneg.
  change 0 with (inject_Z 0). rewrite <- Zle_Qle. lia.
Qed.

Lemma length_pos {A : Type} (l : list A) :
  l <> [] -> 0 < inject_Z (Z.of_nat (List.length l)).
Proof.
  intro H. destruct l as [| c l]; [ exfalso; apply H; reflexivity |].
  change 0 with (inject_Z 0). rewrite <- Zlt_Qlt. rewrite length_cons_Z. lia.
Qed.

(** The average of non-negative numbers is not negative. *)
Lemma average_nonneg (l : list Q) :
  Forall (fun c => 0 <= c) l ->
  0 <= Py.truediv (Py.sum l) (Py.len l).
Proof.
  intro H. unfold Py.truediv. apply round64_nonneg. unfold Qdiv.
  apply Qmult_le_0_compat.
  - unfold Py.sum. apply fold_add_nonneg; [ exact H | apply Qle_refl ].
  - apply Qinv_le_0_compat. apply len_nonneg.
Qed.

(** The quotient that is rounded last, and its distance to the mean. *)
Lemma average_quotient (l : list Q) :
  Forall (fun c => Qabs c <= 100) l ->
  l <> [] ->
  (100 * Z.of_nat (List.length l) < 2 ^ 53)%Z ->
  let n := inject_Z (Z.of_nat (List.length l)) in
  Py.truediv (Py.sum l) (Py.len l) = Py.round64 (Py.sum l / n) /\
  Qabs (Py.sum l / n) <= 100 /\
  Qabs (Py.sum l / n - mean l)
    <= inject_Z (100 * Z.of_nat (List.length l)) * 2 ^ (-53) + 2 ^ (-1075).
Proof.
  intros Hl Hne Hb n.
  assert (Hn : 0 < n) by (apply length_pos; exact Hne).
  assert (Hn0 : ~ n == 0).
  { intro H. rewrite H in Hn. discriminate Hn. }
  assert (Hn1 : 1 <= n).
  { unfold n. change 1 with (inject_Z 1). rewrite <- Zle_Qle.
    unfold n in Hn. change 0 with (inject_Z 0) in Hn.
    rewrite <- Zlt_Qlt in Hn. lia. }
  split; [| split ].
  - unfold Py.truediv. apply round64_comp.
    rewrite (len_exact l) by lia. reflexivity.
  - pose proof (fold_add_bound l Hl 0 0%Z ltac:(discriminate) ltac:(lia))
      as H. fold (Py.sum l) in H.
    unfold Qdiv. rewrite Qabs_Qmult.
    rewrite (Qabs_pos (/ n)) by (apply Qinv_le_0_compat, Qlt_le_weak, Hn).
    apply Qle_shift_div_r; [ exact Hn |].
    eapply Qle_trans; [ exact H |].
    replace (0 + 100 * Z.of_nat (List.length l))%Z
      with (100 * Z.of_nat (List.length l))%Z by lia.
    rewrite inject_Z_mult. apply Qle_refl.
  - pose proof (fold_add_error (100 * Z.of_nat (List.length l)) l Hl 0 0%Z
                  ltac:(discriminate) ltac:(lia) Hb) as H.
    fold (Py.sum l) in H.
    set (D := inject_Z (100 * Z.of_nat (List.length l)) * 2 ^ (-53)
              + 2 ^ (-1075)) in *.
    fold n in H. unfold mean. fold n.
    assert (E : Py.sum l / n - fold_right Qplus 0 l / n
                == (Py.sum l - (0 + fold_right Qplus 0 l)) * / n)
      by (field; exact Hn0).
    rewrite E, Qabs_Qmult.
    rewrite (Qabs_pos (/ n)) by (apply Qinv_le_0_compat, Qlt_le_weak, Hn).
    apply Qle_shift_div_r; [ exact Hn |].
    eapply Qle_trans; [ exact H |]. rewrite Qmult_comm. apply Qle_refl.
Qed.

(** While one hundred times their number is below 2^53, the average of
    numbers from 0 to 100 is at most 100. *)
Lemma average_le_100 (l : list Q) :
  Forall (fun c => 0 <= c /\ c <= 100) l ->
  l <> [] ->
  (100 * Z.of_nat (List.length l) < 2 ^ 53)%Z ->
  Py.truediv (Py.sum l) (Py.len l) <= 100.
Proof.
  intros Hl Hne Hb.
  assert (Ha : Forall (fun c => Qabs c <= 100) l).
  { eapply Forall_impl; [| exact Hl ]. cbv beta. intros c [H0 H1].
    rewrite Qabs_pos; assumption. }
  destruct (average_quotient l Ha Hne Hb) as (E & Hq & _). rewrite E.
  eapply Qle_trans; [ apply Qle_Qabs |].
  apply (round64_abs_le_int _ 100); [ exact Hq | reflexivity ].
Qed.



(** The value returned for a list of scores: 0 for the empty list, the
    average otherwise. *)
Lemma average_or_zero_bounds (l : list Q) :
  Forall (fun c => 0 <= c /\ c <= 100) l ->
  0 <= match l with
       | [] => 0
       | _ => Py.truediv (Py.sum l) (Py.len l)
       end /\
  ((100 * Z.of_nat (List.length l) < 2 ^ 53)%Z ->
   match l with
   | [] => 0
   | _ => Py.truediv (Py.sum l) (Py.len l)
   end <= 100).
Proof.
  intro H. destruct l as [| c l]; [ split; [| intros _ ]; discriminate |].
  split.
  - apply average_nonneg. eapply Forall_impl; [| exact H ].
    cbv beta. intros a [H0 _]. exact H0.
  - intro Hb. apply average_le_100; [ exact H | discriminate | exact Hb ].
Qed.

(** ** The range of binary64 *)

Lemma round_half_even_below (y : Q) (K : Z) :
  y < inject_Z K + (1 # 2) -> (Py.round_half_even y <= K)%Z.
Proof.
  destruct y as [n d]. unfold Qlt, Qplus, inject_Z, Py.round_half_even.
  cbn [Qnum Qden]. intro H.
  pose proof (Z.div_mod n (Zpos d) ltac:(discriminate)) as E.
  pose proof (Z.mod_pos_bound n (Zpos d) ltac:(reflexivity)) as Hr.
  set (q := (n / Zpos d)%Z) in *. set (r := (n mod Zpos d)%Z) in *.
  assert (H' : (2 * n < (2 * K + 1) * Zpos d)%Z) by lia.
  destruct (2 * r <? Zpos d)%Z eqn:C1.
  - apply Z.ltb_lt in C1. nia.
  - apply Z.ltb_ge in C1.
    assert (Hq : (q + 1 <= K)%Z) by nia.
    destruct (Zpos d <? 2 * r)%Z; [ exact Hq |].
    destruct (Z.even q); lia.
Qed.

Lemma round_half_even_ge (y : Q) (K : Z) :
  inject_Z K <= y -> (K <= Py.round_half_even y)%Z.
Proof.
  destruct y as [n d]. unfold Qle, inject_Z, Py.round_half_even.
  cbn [Qnum Qden]. intro H.
  pose proof (Z.div_mod n (Zpos d) ltac:(discriminate)) as E.
  pose proof (Z.mod_pos_bound n (Zpos d) ltac:(reflexivity)) as Hr.
  set (q := (n / Zpos d)%Z) in *. set (r := (n mod Zpos d)%Z) in *.
  assert (Hq : (K <= q)%Z) by nia.
  destruct (2 * r <? Zpos d)%Z; [ exact Hq |].
  destruct (Zpos d <? 2 * r)%Z; [ lia |].
  destruct (Z.even q); lia.
Qed.

(** Rounding does not go beyond a power of two from less than half a
    spacing above it. *)
Lemma round64_le_pow2 (x : Q) (K : Z) :
  (-1022 <= K)%Z -> 0 <= x -> x < 2 ^ K + 2 ^ (K - 53) ->
  Py.round64 x <= 2 ^ K.
Proof.
  intros HK Hx Hlt. unfold Py.round64.
  destruct (Qeq_bool x 0) eqn:Z0; [ apply Qlt_le_weak, pow2_pos |].
  assert (Hnz : ~ x == 0).
  { intro H. apply Qeq_bool_iff in H. rewrite H in Z0. discriminate Z0. }
  assert (Hpos : 0 < x).
  { apply Qle_lt_or_eq in Hx. destruct Hx as [H | H]; [ exact H |].
    exfalso. apply Hnz. symmetry. exact H. }
  cbv zeta. pose proof Hx as Hs. apply Qle_bool_iff in Hs. rewrite Hs.
  assert (Ea : Qabs x == x) by (apply Qabs_pos; exact Hx).
  assert (Hl : Py.ilog2 (Qabs x) = Py.ilog2 x).
  { apply ilog2_comp; [ rewrite Ea; exact Hpos | exact Ea ]. }
  destruct (ilog2_spec x Hpos) as [L U].
  assert (Hp : forall e : Z, ~ 2 ^ e == 0).
  { intros e H. pose proof (pow2_pos e) as P. rewrite H in P. discriminate P. }
  assert (Hm : (Py.round_half_even (Qabs x / 2 ^ Py.exponent x)
                <= 2 ^ (K - Py.exponent x))%Z
               /\ (Py.exponent x <= K)%Z).
  { destruct (Qlt_le_dec (2 ^ K) x) as [Hbig | Hsmall].
    - assert (Hk : Py.ilog2 x = K).
      { apply (ilog2_unique x); [ exact L | exact U
                                 | apply Qlt_le_weak; exact Hbig |].
        eapply Qlt_le_trans; [ exact Hlt |].
        replace (K + 1)%Z with (K + 1 - 1 + 1)%Z by lia.
        rewrite (Qpower_plus 2 (K + 1 - 1) 1) by exact two_neq_0.
        replace (K + 1 - 1)%Z with K by lia.
        apply Qle_trans with (y := 2 ^ K + 2 ^ K).
        + apply Qplus_le_compat; [ apply Qle_refl |].
          apply Qpower_le_compat_l; [ lia | discriminate ].
        + apply Qle_lteq. right. change (2 ^ 1) with 2. ring. }
      assert (He : Py.exponent x = (K - 52)%Z).
      { unfold Py.exponent. rewrite Hl, Hk. lia. }
      rewrite He. split; [| lia ].
      replace (K - (K - 52))%Z with 52%Z by lia.
      apply round_half_even_below.
      rewrite Ea. apply Qlt_shift_div_r; [ apply pow2_pos |].
      eapply Qlt_le_trans; [ exact Hlt |].
      apply Qle_lteq. right.
      replace K with (52 + (K - 52))%Z at 1 by lia.
      replace (K - 53)%Z with (-1 + (K - 52))%Z by lia.
      rewrite !Qpower_plus by exact two_neq_0.
      assert (Ec : inject_Z (2 ^ 52) == 2 ^ 52) by reflexivity.
      assert (Ed : 2 ^ (-1) == 1 # 2) by reflexivity.
      rewrite Ec, Ed. ring.
    - assert (Hk : (Py.ilog2 x <= K)%Z).
      { apply (Qpower_le_compat_l_inv 2); [| exact two_gt_1 ].
        eapply Qle_trans; [ exact L | exact Hsmall ]. }
      assert (He : (Py.exponent x <= K - 52)%Z).
      { unfold Py.exponent. rewrite Hl. lia. }
      split; [| lia ].
      apply round_half_even_le.
      rewrite Ea. apply Qle_shift_div_r; [ apply pow2_pos |].
      eapply Qle_trans; [ exact Hsmall |].
      apply Qle_lteq. right.
      rewrite <- (pow2_inject (K - Py.exponent x)) by lia.
      rewrite <- Qpower_plus by exact two_neq_0.
      replace (K - Py.exponent x + Py.exponent x)%Z with K by lia.
      reflexivity. }
  destruct Hm as [Hm He]. set (e := Py.exponent x) in *.
  rewrite Zle_Qle in Hm. rewrite <- (pow2_inject (K - e)) in Hm by lia.
  apply Qle_trans with (y := 2 ^ (K - e) * 2 ^ e).
  - apply Qmult_le_compat_r; [ exact Hm | apply Qlt_le_weak, pow2_pos ].
  - rewrite <- Qpower_plus by exact two_neq_0.
    replace (K - e + e)%Z with K by lia. apply Qle_refl.
Qed.

Lemma round64_abs_le_pow2 (x : Q) (K : Z) :
  (-1022 <= K)%Z -> Qabs x < 2 ^ K + 2 ^ (K - 53) ->
  Qabs (Py.round64 x) <= 2 ^ K.
Proof.
  intros HK Hlt. destruct (Qlt_le_dec x 0) as [Hneg | Hpos].
  - assert (Hx : 0 <= - x).
    { apply Qlt_le_weak in Hneg. apply Qopp_le_compat in Hneg. exact Hneg. }
    assert (E : Py.round64 x == - Py.round64 (- x))
      by (rewrite round64_opp, Qopp_involutive; reflexivity).
    rewrite E, Qabs_opp.
    rewrite Qabs_pos by (apply round64_nonneg; exact Hx).
    apply round64_le_pow2; [ exact HK | exact Hx |].
    rewrite <- (Qabs_neg x) by (apply Qlt_le_weak; exact Hneg). exact Hlt.
  - rewrite Qabs_pos by (apply round64_nonneg; exact Hpos).
    apply round64_le_pow2; [ exact HK | exact Hpos |].
    rewrite <- (Qabs_pos x Hpos). exact Hlt.
Qed.

(** A rounded number that is at least 1 stays at least 1. *)
Lemma round64_ge_1 (x : Q) : 1 <= x -> 1 <= Py.round64 x.
Proof.
  intro H1.
  assert (Hpos : 0 < x) by (eapply Qlt_le_trans; [| exact H1 ]; reflexivity).
  assert (Hx : 0 <= x) by (apply Qlt_le_weak; exact Hpos).
  unfold Py.round64. destruct (Qeq_bool x 0) eqn:Z0.
  { apply Qeq_bool_iff in Z0. rewrite Z0 in Hpos. discriminate Hpos. }
  cbv zeta. pose proof Hx as Hs. apply Qle_bool_iff in Hs. rewrite Hs.
  assert (Ea : Qabs x == x) by (apply Qabs_pos; exact Hx).
  set (e := Py.exponent x).
  destruct (Z_lt_le_dec 0 e) as [He | He].
  - (* the spacing is above 1: the number is at least 2^52 *)
    apply Qle_trans with (y := 1 * 1); [ discriminate |].
    apply Qmult_le_compat_nonneg.
    + split; [ discriminate |].
      change 1 with (inject_Z 1). rewrite <- Zle_Qle.
      apply round_half_even_ge. rewrite Ea.
      apply Qle_shift_div_l; [ apply pow2_pos |].
      change (inject_Z 1) with 1. rewrite Qmult_1_l.
      assert (Hl : Py.ilog2 (Qabs x) = Py.ilog2 x).
      { apply ilog2_comp; [ rewrite Ea; exact Hpos | exact Ea ]. }
      destruct (ilog2_spec x Hpos) as [L _].
      eapply Qle_trans; [| exact L ].
      apply Qpower_le_compat_l; [| discriminate ].
      unfold e, Py.exponent in *. rewrite Hl in *. lia.
    + split; [ discriminate |].
      change 1 with (2 ^ 0). apply Qpower_le_compat_l; [ lia | discriminate ].
  - assert (Hm : (2 ^ (- e) <= Py.round_half_even (Qabs x / 2 ^ e))%Z).
    { apply round_half_even_ge. rewrite Ea.
      apply Qle_shift_div_l; [ apply pow2_pos |].
      rewrite <- (pow2_inject (- e)) by lia.
      rewrite <- Qpower_plus by exact two_neq_0.
      replace (- e + e)%Z with 0%Z by lia. exact H1. }
    rewrite Zle_Qle in Hm. rewrite <- (pow2_inject (- e)) in Hm by lia.
    apply Qle_trans with (y := 2 ^ (- e) * 2 ^ e).
    + rewrite <- Qpower_plus by exact two_neq_0.
      replace (- e + e)%Z with 0%Z by lia. apply Qle_refl.
    + apply Qmult_le_compat_r; [ exact Hm | apply Qlt_le_weak, pow2_pos ].
Qed.

(** However long the list, a rounded sum of numbers of absolute value at
    most 100 does not go beyond 2^61: from there on an addition changes
    nothing. *)
Lemma fold_add_in_range (l : list Q) :
  Forall (fun c => Qabs c <= 100) l ->
  forall a : Q, Qabs a <= 2 ^ 61 -> Qabs (fold_left Py.add l a) <= 2 ^ 61.
Proof.
  induction 1 as [| c l Hc Hl IH]; intros a Ha; cbn [fold_left].
  - exact Ha.
  - apply IH. unfold Py.add. apply round64_abs_le_pow2; [ lia |].
    eapply Qle_lt_trans; [ apply Qabs_triangle |].
    apply Qle_lt_trans with (y := 2 ^ 61 + 100).
    + apply Qplus_le_compat; assumption.
    + apply Qplus_lt_r. reflexivity.
Qed.

(** The average of numbers of absolute value at most 100 is a finite
    binary64 number, however long the list: neither the sum nor the
    quotient goes beyond 2^61. *)
Lemma average_in_range (l : list Q) :
  Forall (fun c => Qabs c <= 100) l ->
  l <> [] ->
  Qabs (Py.sum l) <= 2 ^ 61 /\
  Qabs (Py.truediv (Py.sum l) (Py.len l)) <= 2 ^ 61.
Proof.
  intros Hl Hne.
  assert (Hs : Qabs (Py.sum l) <= 2 ^ 61).
  { unfold Py.sum. apply fold_add_in_range; [ exact Hl | discriminate ]. }
  split; [ exact Hs |].
  assert (Hn : 1 <= Py.len l).
  { unfold Py.len. apply round64_ge_1.
    pose proof (length_pos l Hne) as H. change 0 with (inject_Z 0) in H.
    rewrite <- Zlt_Qlt in H. change 1 with (inject_Z 1).
    rewrite <- Zle_Qle. lia. }
  assert (Hn0 : 0 < Py.len l)
    by (eapply Qlt_le_trans; [| exact Hn ]; reflexivity).
  unfold Py.truediv. apply round64_abs_le_pow2; [ lia |].
  apply Qle_lt_trans with (y := 2 ^ 61); [| reflexivity ].
  unfold Qdiv. rewrite Qabs_Qmult.
  rewrite (Qabs_pos (/ Py.len l))
    by (apply Qinv_le_0_compat, Qlt_le_weak, Hn0).
  apply Qle_shift_div_r; [ exact Hn0 |].
  eapply Qle_trans; [ exact Hs |].
  apply Qle_trans with (y := 2 ^ 61 * 1);
    [ rewrite Qmult_1_r; apply Qle_refl |].
  apply Qmult_le_l; [ reflexivity | exact Hn ].
Qed.

Lemma average_or_zero_in_range (l : list Q) :
  Forall (fun c => 0 <= c /\ c <= 100) l ->
  match l with
  | [] => 0
  | _ => Py.truediv (Py.sum l) (Py.len l)
  end <= 2 ^ 61.
Proof.
  intro H. destruct l as [| c l]; [ discriminate |].
  eapply Qle_trans; [ apply Qle_Qabs |].
  apply average_in_range; [| discriminate ].
  eapply Forall_impl; [| exact H ]. cbv beta. intros a [H0 H1].
  rewrite Qabs_pos; assumption.
Qed.

End Binary64.





(** The two computations of the average differ only in the test of the
    sentinel, and the two tests agree outside the open interval between -2
    and -1. *)
Lemma average_filters_agree (d : ocr_data) :
  Forall exact_sentinel (conf d) ->
  filter (fun ct : Q * string => Py.truthy (Py.strip (snd ct))
                     && negb (Py.int (fst ct) =? -1)%Z)
    (combine (conf d) (text d)) =
  filter (fun ct => Py.truthy (Py.strip (snd ct))
                     && negb (Py.eqb (fst ct) (-1)))
    (combine (conf d) (text d)).
Proof.
  intro Hr. apply filter_ext_in. intros [c t] Hin.
  apply in_combine_l in Hin. rewrite Forall_forall in Hr.
  cbn [fst snd]. unfold Py.eqb. rewrite (int_sentinel c (Hr c Hin)).
  reflexivity.
Qed.

Lemma averages_agree_in_range (d : ocr_data) :
  Forall conf_in_range (conf d) ->
  average_of_ocr_data d = calculate_average_confidence d.
Proof.
  intro Hr. unfold average_of_ocr_data, calculate_average_confidence.
  rewrite (average_filters_agree d); [ reflexivity |].
  eapply Forall_impl; [| exact Hr ]. exact conf_in_range_exact.
Qed.

(** ** Drawing *)

Lemma for_each_preserves {S I : Type} (body : S -> I -> res S)
  (P : S -> Prop) (items : list I) :
  (forall s i, In i items -> P s -> exists s', body s i = ok s' /\ P s') ->
  forall s, P s -> exists s', for_each body items s = ok s' /\ P s'.
Proof.
  induction items as [| i items IH]; intros Hbody s Hs.
  - exists s. split; [ reflexivity | exact Hs ].
  - destruct (Hbody s i (or_introl eq_refl) Hs) as (s1 & E1 & Hs1).
    cbn [for_each]. rewrite E1. cbn [rbind ok].
    apply IH; [| exact Hs1 ].
    intros s2 j Hj. apply Hbody. right. exact Hj.
Qed.

Lemma shape_map {A B : Type} (f : A -> B) (m : list (list A)) :
  (List.length (map (map f) m), List.length (hd [] (map (map f) m))) =
  (List.length m, List.length (hd [] m)).
Proof.
  destruct m as [| row m]; cbn [map hd List.length].
  - reflexivity.
  - rewrite !length_map. reflexivity.
Qed.

Lemma pixel_map {A : Type} (f : A -> color) (m : list (list A))
  (p : nat * nat) :
  pixel (map (map f) m) p =
  option_map f (nth_error (nth (snd p) m []) (fst p)).
Proof.
  unfold pixel.
  change (@nil color) with (map f []).
  rewrite map_nth. apply nth_error_map.
Qed.

Lemma shape_reverse_channels (m : raster) :
  shape (reverse_channels m) = shape m.
Proof. apply shape_map. Qed.

Lemma pixel_reverse_channels (m : raster) (p : nat * nat) :
  pixel (reverse_channels m) p =
  option_map (fun c : color => let '(c0, c1, c2) := c in (c2, c1, c0))
    (pixel m p).
Proof. apply pixel_map. Qed.

Lemma to_array_convert_RGB (image : Image) :
  to_array (convert_RGB image) = to_array image.
Proof. destruct image; reflexivity. Qed.

Lemma shape_to_array (image : Image) :
  shape (to_array image) = (snd (size image), fst (size image)).
Proof.
  destruct image as [px | px]; unfold to_array, shape, size, convert_RGB;
    cbn [fst snd]; [| reflexivity ].
  apply shape_map.
Qed.

(** A word record that is skipped by the loop leaves the array as it is. *)
Lemma draw_box_skip (d : ocr_data) (show : bool) (m : raster) (i : nat)
  (r : word_record) :
  index (text d) i = ok (w_text r) -> index (conf d) i = ok (w_conf r) ->
  has_text r = false \/ (w_conf r == -1)%Q ->
  draw_box d show m i = ok m.
Proof.
  intros Ht Hc Hskip. unfold draw_box. rewrite Ht. cbn [rbind ok].
  unfold has_text in Hskip.
  destruct (Py.truthy (Py.strip (w_text r))); cbn [negb]; [| reflexivity ].
  destruct Hskip as [Hskip | Hskip]; [ discriminate Hskip |].
  rewrite Hc. cbn [rbind ok]. rewrite (int_of_sentinel _ Hskip).
  reflexivity.
Qed.

Section Contract.

(** The contract of the drawing operations: they keep the height and the
    width of the array, and write inside their footprint only. *)
Hypothesis rectangle_shape :
  forall m p1 p2 c t, shape (cv2_rectangle m p1 p2 c t) = shape m.
Hypothesis rectangle_frame :
  forall m p1 p2 c t p,
    rectangle_area p1 p2 t p = false ->
    pixel (cv2_rectangle m p1 p2 c t) p = pixel m p.
Hypothesis putText_shape :
  forall m s o f k c t, shape (cv2_putText m s o f k c t) = shape m.
Hypothesis putText_frame :
  forall m s o f k c t p,
    text_area s o f k t p = false ->
    pixel (cv2_putText m s o f k c t) p = pixel m p.

(** One iteration on a word record of the result set returns, keeps the
    shape of the array, and keeps every pixel outside the region drawn for
    that record; a skipped record keeps them all. *)
Lemma draw_box_frame (d : ocr_data) (show : bool) (m : raster) (i : nat)
  (r : word_record) :
  index (text d) i = ok (w_text r) -> index (conf d) i = ok (w_conf r) ->
  index (left d) i = ok (w_left r) -> index (top d) i = ok (w_top r) ->
  index (width d) i = ok (w_width r) ->
  index (height d) i = ok (w_height r) ->
  exists m',
    draw_box d show m i = ok m' /\
    shape m' = shape m /\
    forall p,
      (has_text r && scored r && box_area r show p) = false ->
      pixel m' p = pixel m p.
Proof.
  intros Ht Hc Hx Hy Hw Hh. unfold draw_box. rewrite Ht. cbn [rbind ok].
  unfold has_text.
  destruct (Py.truthy (Py.strip (w_text r))) eqn:Etext; cbn [negb];
    [| exists m; repeat split ].
  rewrite Hc. cbn [rbind ok].
  destruct (Py.int (w_conf r) =? -1)%Z eqn:Eint; [ exists m; repeat split |].
  rewrite Hx, Hy, Hw, Hh. cbn [rbind ok]. unfold Py.float.
  assert (Hs : scored r = true).
  { unfold scored. destruct (Qeq_bool (w_conf r) (-1)) eqn:E;
      [| reflexivity ].
    apply Qeq_bool_iff in E. apply int_of_sentinel in E.
    rewrite E in Eint. discriminate Eint. }
  rewrite Hs. cbn [andb]. unfold box_area.
  destruct show; eexists; (split; [ reflexivity |]); split.
  - rewrite putText_shape, !rectangle_shape. reflexivity.
  - intros p Hp. cbn [andb] in Hp.
    apply orb_false_iff in Hp. destruct Hp as [Hp1 Hp2].
    apply orb_false_iff in Hp2. destruct Hp2 as [Hp2 Hp3].
    rewrite putText_frame by exact Hp3.
    rewrite rectangle_frame by exact Hp2.
    apply rectangle_frame. exact Hp1.
  - apply rectangle_shape.
  - intros p Hp. cbn [andb] in Hp. rewrite orb_false_r in Hp.
    apply rectangle_frame. exact Hp.
Qed.

(** C8.  On a result set (aligned columns) and any input image,
    [draw_bounding_boxes] returns an image; a word record whose trimmed text
    is empty or whose confidence equals -1 is passed over, the iteration of
    the loop leaving the array as it is; the returned image has the width
    and the height of the input; and at every position outside the
    rectangles and labels drawn for the word records with text and a score
    the returned image shows the colour of the input (for an input in mode
    RGB: the pixel of the input). *)
Theorem draw_bounding_boxes_frame :
  forall (image : Image) (d : ocr_data) (show_confidence : bool),
    aligned d ->
    (forall (i : nat) (r : word_record) (m : raster),
        nth_error (records d) i = Some r ->
        has_text r = false \/ (w_conf r == -1)%Q ->
        draw_box d show_confidence m i = ok m) /\
    exists result_image : Image,
      draw_bounding_boxes image d show_confidence = ok result_image /\
      size result_image = size image /\
      (forall p : nat * nat,
          drawn d show_confidence p = false ->
          rgb_at result_image p = rgb_at image p) /\
      (forall (px : list (list color)) (p : nat * nat),
          image = ImageRGB px ->
          drawn d show_confidence p = false ->
          exists px',
            result_image = ImageRGB px' /\ pixel px' p = pixel px p).
Proof.
  intros image d show Ha.
  assert (L : List.length (records d) = List.length (text d)).
  { destruct Ha as (Hc & Hx & Hy & Hw & Hh).
    apply zip_records_length; assumption. }
  split.
  - intros i r m Hr Hskip.
    assert (Hi : (i < List.length (text d))%nat).
    { rewrite <- L. apply nth_error_Some. rewrite Hr. discriminate. }
    destruct (records_index d i Ha Hi) as (r' & Hr' & Ht & Hc & _).
    rewrite Hr in Hr'. injection Hr' as <-.
    exact (draw_box_skip d show m i r Ht Hc Hskip).
  - unfold draw_bounding_boxes.
    set (m0 := reverse_channels (to_array (convert_RGB image))).
    destruct (for_each_preserves (draw_box d show)
                (fun m => shape m = shape m0 /\
                          forall p, drawn d show p = false ->
                                    pixel m p = pixel m0 p)
                (range (List.length (text d)))) with (s := m0)
      as (m1 & E1 & Hshape & Hframe).
    + intros m i Hi [Hs Hf]. apply in_seq in Hi.
      destruct (records_index d i Ha ltac:(lia))
        as (r & Hr & Ht & Hc & Hx & Hy & Hw & Hh).
      destruct (draw_box_frame d show m i r Ht Hc Hx Hy Hw Hh)
        as (m' & E & Hs' & Hf').
      exists m'. split; [ exact E | split ].
      * rewrite Hs'. exact Hs.
      * intros p Hp. rewrite <- (Hf p Hp). apply Hf'.
        unfold drawn in Hp.
        destruct (has_text r && scored r && box_area r show p) eqn:Eb;
          [| reflexivity ].
        rewrite <- Hp. symmetry. apply existsb_exists.
        exists r. split; [ eapply nth_error_In; exact Hr | exact Eb ].
    + split; [ reflexivity | intros p _; reflexivity ].
    + rewrite E1. cbn [rbind ok].
      assert (Hrgb : forall p, drawn d show p = false ->
                rgb_at (fromarray (reverse_channels m1)) p = rgb_at image p).
      { intros p Hp. unfold rgb_at, fromarray.
        change (to_array (ImageRGB (reverse_channels m1)))
          with (reverse_channels m1).
        rewrite pixel_reverse_channels, (Hframe p Hp). unfold m0.
        rewrite pixel_reverse_channels, to_array_convert_RGB.
        destruct (pixel (to_array image) p) as [[[c0 c1] c2] |];
          reflexivity. }
      eexists. split; [ reflexivity | split; [| split ] ].
      * transitivity (snd (shape (reverse_channels m1)),
                      fst (shape (reverse_channels m1)));
          [ reflexivity |].
        rewrite shape_reverse_channels, Hshape. unfold m0.
        rewrite shape_reverse_channels, to_array_convert_RGB, shape_to_array.
        cbn [fst snd]. destruct (size image). reflexivity.
      * exact Hrgb.
      * intros px p -> Hp. eexists. split; [ reflexivity |].
        exact (Hrgb p Hp).
Qed.

End Contract.

(** Drawing on a result set returns, whatever the drawing operations do. *)
Lemma draw_bounding_boxes_returns (image : Image) (d : ocr_data)
  (show : bool) :
  aligned d -> exists out, draw_bounding_boxes image d show = ok out.
Proof.
  intro Ha. unfold draw_bounding_boxes.
  destruct (for_each_preserves (draw_box d show) (fun _ => True)
              (range (List.length (text d))))
    with (s := reverse_channels (to_array (convert_RGB image)))
    as (m1 & E1 & _).
  - intros m i Hi _. apply in_seq in Hi.
    destruct (records_index d i Ha ltac:(lia))
      as (r & _ & Ht & Hc & Hx & Hy & Hw & Hh).
    unfold draw_box. rewrite Ht. cbn [rbind ok].
    destruct (negb (Py.truthy (Py.strip (w_text r))));
      [ exists m; split; [ reflexivity | exact I ] |].
    rewrite Hc. cbn [rbind ok].
    destruct (Py.int (w_conf r) =? -1)%Z;
      [ exists m; split; [ reflexivity | exact I ] |].
    rewrite Hx, Hy, Hw, Hh. cbn [rbind ok].
    destruct show; eexists; (split; [ reflexivity | exact I ]).
  - exact I.
  - rewrite E1. eexists. reflexivity.
Qed.


(** C10.  On every OCR result set (aligned columns, confidences from -1 to
    100) the average computed inside [process_image_with_ocr], which leaves
    out a record when [int(conf) == -1], and [calculate_average_confidence],
    which leaves out a record when [conf == -1], return the same number:
    on that range truncation yields -1 for the sentinel only, so the two
    computations average the same confidences, in the same order.  The
    average that [process_image_with_ocr] returns for the data of the engine
    is the value of [calculate_average_confidence] on these data. *)
Theorem averages_agree :
  forall d : ocr_data,
    result_set d ->
    average_of_ocr_data d = calculate_average_confidence d /\
    forall (image : Image) (lang psm_mode : string) (show_confidence : bool)
           (raw_text : string) (log : list engine_call),
      image_to_data pytesseract image lang
        ("--oem " ++ DEFAULT_OEM_MODE ++ " --psm " ++ psm_mode) = ok d ->
      image_to_string pytesseract image lang
        ("--oem " ++ DEFAULT_OEM_MODE ++ " --psm " ++ psm_mode)
        = ok raw_text ->
      exists bbox_image : Image,
        fst (process_image_with_ocr image lang psm_mode show_confidence log) =
          ok (bbox_image, Py.strip raw_text, d,
              calculate_average_confidence d).
Proof.
  intros d Hd.
  pose proof (averages_agree_in_range d (proj2 Hd)) as E.
  split; [ exact E |].
  intros image lang psm show raw log Hdata Htext.
  destruct (draw_bounding_boxes_returns image d show (proj1 Hd))
    as (out & Hout).
  exists out. rewrite <- E.
  unfold process_image_with_ocr, get_ocr_data, perform_ocr, bind, call,
    lift, ret.
  rewrite Hdata. cbv beta iota. rewrite Htext. cbv beta iota.
  unfold ok. cbv beta iota. rewrite Hout. reflexivity.
Qed.

(** ** Missing language data *)

Lemma contains_In (l : list string) (x : string) :
  contains l x = true <-> In x l.
Proof.
  unfold contains. rewrite existsb_exists. split.
  - intros (y & Hy & E). apply String.eqb_eq in E. subst y. exact Hy.
  - intro H. exists x. split; [ exact H | apply String.eqb_refl ].
Qed.

Lemma append_empty_r (s : string) : s ++ "" = s.
Proof.
  induction s as [| c s IH]; simpl; [ reflexivity | rewrite IH; reflexivity ].
Qed.

Lemma occurs_refl (x : string) : occurs x x.
Proof. exists "", "". simpl. rewrite append_empty_r. reflexivity. Qed.

Lemma occurs_append_r (x a s : string) : occurs x s -> occurs x (a ++ s).
Proof.
  intros (u & v & ->). exists (a ++ u), v. rewrite append_assoc. reflexivity.
Qed.

Lemma occurs_append_l (x s b : string) : occurs x s -> occurs x (s ++ b).
Proof.
  intros (u & v & ->). exists u, (v ++ b). rewrite !append_assoc. reflexivity.
Qed.

Lemma occurs_join (sep x : string) (l : list string) :
  In x l -> occurs x (Py.join sep l).
Proof.
  induction l as [| y l IH]; intro H; [ destruct H |].
  destruct H as [-> | H].
  - destruct l as [| z l]; cbn [Py.join];
      [ apply occurs_refl | apply occurs_append_l, occurs_refl ].
  - destruct l as [| z l]; [ destruct H |].
    change (Py.join sep (y :: z :: l))
      with (y ++ sep ++ Py.join sep (z :: l)).
    apply occurs_append_r, occurs_append_r, IH. exact H.
Qed.

(** C2.  For a language selection and a segmentation mode of the form, and
    an image, when one of the identifiers of the language code (split at the
    plus signs) is not in the list of installed languages reported by the
    engine, [ocr_interface] returns no image, no table, and as text the
    missing-language message, in which every missing identifier and every
    installed language occur; the only call made to the engine is the query
    of the installed languages: neither OCR extraction is called. *)
Theorem ocr_interface_missing_language :
  forall (image : Image) (language psm_mode : string) (g c s d : bool)
         (lang_code psm_code : string) (available_langs : list string),
    dict_get LANGUAGES language = Some lang_code ->
    dict_get PSM_MODES psm_mode = Some psm_code ->
    get_languages pytesseract = ok available_langs ->
    (exists l, In l (Py.split "+" lang_code) /\ ~ In l available_langs) ->
    exists (error_msg : string) (calls : list engine_call),
      ocr_interface (Some image) language psm_mode g c s d [] =
        (ok (None, error_msg, "", None), calls) /\
      calls = [Call_get_languages] /\
      existsb is_ocr_call calls = false /\
      error_msg =
        missing_language_message language
          (filter (fun l => negb (contains available_langs l))
             (Py.split "+" lang_code))
          available_langs /\
      occurs "言語データが見つかりません" error_msg /\
      (forall l, In l (Py.split "+" lang_code) -> ~ In l available_langs ->
                 occurs l error_msg) /\
      (forall l, In l available_langs -> occurs l error_msg) /\
      occurs (Py.join ", " available_langs) error_msg.
Proof.
  intros image language psm_mode g c s d lang_code psm_code available
    Hlang Hpsm Havail (l0 & Hl0 & Hmiss0).
  set (missing := filter (fun l => negb (contains available l))
                    (Py.split "+" lang_code)).
  assert (Hin : forall l, In l (Py.split "+" lang_code) ->
                          ~ In l available -> In l missing).
  { intros l Hl Hn. apply filter_In. split; [ exact Hl |].
    apply negb_true_iff. apply not_true_iff_false.
    rewrite contains_In. exact Hn. }
  exists (missing_language_message language missing available),
    [Call_get_languages].
  split; [| split; [ reflexivity | split; [ reflexivity |
    split; [ reflexivity | split; [| split; [| split ] ] ] ] ] ].
  - unfold ocr_interface, try_except, bind, lift, call, getitem, ret.
    rewrite Hlang, Hpsm, Havail. cbn [ok app].
    fold missing. destruct missing as [| m ms] eqn:E.
    + exfalso. exact (Hin l0 Hl0 Hmiss0).
    + reflexivity.
  - unfold missing_language_message.
    exists (String "010"%char "**❌ エラー: "),
      ("**" ++ String "010"%char (String "010"%char "選択した言語（")
       ++ language ++ "）のデータがインストールされていません。

**不足している言語データ:** " ++ Py.join ", " missing ++ "

**インストール方法:**
```bash
# Ubuntu/Debianの場合
sudo apt-get update
sudo apt-get install tesseract-ocr-" ++ hd "" missing ++ "
```

**利用可能な言語:** " ++ Py.join ", " available ++ "

英語（eng）であれば通常デフォルトでインストールされています。
").
    reflexivity.
  - intros l Hl Hn. unfold missing_language_message.
    do 3 apply occurs_append_r. apply occurs_append_l.
    apply occurs_join. exact (Hin l Hl Hn).
  - intros l Hl. unfold missing_language_message.
    do 7 apply occurs_append_r. apply occurs_append_l.
    apply occurs_join. exact Hl.
  - unfold missing_language_message.
    do 7 apply occurs_append_r. apply occurs_append_l. apply occurs_refl.
Qed.

(** ** The preprocessing chain *)

(** C5.  With the four switches off, [preprocess_image] returns an image
    equal to its input, whatever the enhancement factors.  A filter whose
    switch is off is passed through: the result is the one of the chain of
    the three other filters, in which the switched-off filter does not
    occur. *)
Theorem preprocess_image_disabled_filters :
  forall (image : Image) (cf sf : Q),
    preprocess_image image false false false false cf sf = image /\
    (forall g c s : bool,
        preprocess_image image g c s false cf sf =
        run_chain [ (c, fun im => enhance_contrast im cf);
                    (s, fun im => enhance_sharpness im sf);
                    (g, convert_to_grayscale) ] image) /\
    (forall g s d : bool,
        preprocess_image image g false s d cf sf =
        run_chain [ (d, denoise_image);
                    (s, fun im => enhance_sharpness im sf);
                    (g, convert_to_grayscale) ] image) /\
    (forall g c d : bool,
        preprocess_image image g c false d cf sf =
        run_chain [ (d, denoise_image);
                    (c, fun im => enhance_contrast im cf);
                    (g, convert_to_grayscale) ] image) /\
    (forall c s d : bool,
        preprocess_image image false c s d cf sf =
        run_chain [ (d, denoise_image);
                    (c, fun im => enhance_contrast im cf);
                    (s, fun im => enhance_sharpness im sf) ] image).
Proof.
  intros image cf sf. split; [ reflexivity |].
  repeat split; intros [] [] []; reflexivity.
Qed.

Lemma convert_L_single_channel (image : Image) :
  single_channel (convert_L image).
Proof. destruct image as [px | px]; eexists; reflexivity. Qed.

(** C6.  [preprocess_image] applies the filters that are switched on in
    the order denoise, contrast, sharpness, grayscale: its result is the
    left-to-right run of [filter_chain] on the input; with a switch on, the
    denoiser acts on the input itself and the grayscale conversion on the
    result of all the other filters; and with the grayscale switch on the
    result has a single channel, whatever the other switches. *)
Theorem preprocess_image_order :
  forall (image : Image) (g c s d : bool) (cf sf : Q),
    preprocess_image image g c s d cf sf =
      run_chain (filter_chain g c s d cf sf) image /\
    preprocess_image image true true true true cf sf =
      convert_to_grayscale
        (enhance_sharpness
           (enhance_contrast (denoise_image image) cf) sf) /\
    preprocess_image image g c s true cf sf =
      preprocess_image (denoise_image image) g c s false cf sf /\
    preprocess_image image true c s d cf sf =
      convert_to_grayscale (preprocess_image image false c s d cf sf) /\
    single_channel (preprocess_image image true c s d cf sf).
Proof.
  intros image g c s d cf sf.
  split; [ destruct g, c, s, d; reflexivity |].
  split; [ reflexivity |].
  split; [ reflexivity |].
  split; [ reflexivity |].
  unfold preprocess_image, convert_to_grayscale.
  apply convert_L_single_channel.
Qed.

(** ** The request handler *)

(** C9.  Without an image, [ocr_interface] returns at once: no image, the
    prompt asking for an upload as text, an empty confidence line and no
    table; the log of engine calls is left as it was, so no call to the
    engine is made. *)
Theorem ocr_interface_no_image :
  forall (language psm_mode : string) (g c s d : bool)
         (log : list engine_call),
    ocr_interface None language psm_mode g c s d log =
      (ok (None, "画像をアップロードしてください。", "", None), log).
Proof. reflexivity. Qed.

(* ===================================================================== *)
(** * Further properties of the code *)
(* ===================================================================== *)

(** ** utils.py *)

Lemma append_percent_not_NA (s : string) : s ++ "%" <> "N/A".
Proof.
  destruct s as [| a [| b [| c s]]]; simpl; intro H; try discriminate H.
  injection H as _ _ _ H. destruct s; discriminate H.
Qed.

(** X1.  [format_confidence] returns "N/A" for the sentinel only: a
    confidence different from -1 is never rendered as "N/A". *)
Theorem format_confidence_NA_iff :
  forall c : Q, format_confidence c = "N/A" <-> (c == -1)%Q.
Proof.
  intro c. unfold format_confidence, Py.eqb. split.
  - destruct (Qeq_bool c (-1)) eqn:E; [ intros _; apply Qeq_bool_iff, E |].
    intro H. exfalso. exact (append_percent_not_NA _ H).
  - intro E. apply Qeq_bool_iff in E. rewrite E. reflexivity.
Qed.



Lemma length_averaged (f : Q * string -> bool) (d : ocr_data) :
  (Z.of_nat (List.length (filter f (combine (conf d) (text d))))
   <= Z.of_nat (List.length (conf d)))%Z.
Proof.
  pose proof (filter_length_le f (combine (conf d) (text d))) as H.
  rewrite length_combine in H. lia.
Qed.

(** The confidences averaged by either computation, when every confidence
    is the sentinel or a score: scores. *)
Lemma averaged_scores (d : ocr_data) (c : Q) (t : string) :
  Forall engine_confidence (conf d) ->
  In (c, t) (combine (conf d) (text d)) ->
  negb (Py.eqb c (-1)) = true \/ negb (Py.int c =? -1)%Z = true ->
  (0 <= c /\ c <= 100)%Q.
Proof.
  intros Hd Hin Hp. rewrite Forall_forall in Hd.
  apply in_combine_l in Hin.
  destruct (Hd c Hin) as [E | R]; [ exfalso | exact R ].
  destruct Hp as [Hp | Hp]; apply negb_true_iff in Hp.
  - unfold Py.eqb in Hp. apply Qeq_bool_iff in E. rewrite E in Hp.
    discriminate Hp.
  - apply int_of_sentinel in E. rewrite E in Hp. discriminate Hp.
Qed.

Lemma calculated_scores (d : ocr_data) :
  Forall engine_confidence (conf d) ->
  Forall (fun c => 0 <= c /\ c <= 100)%Q
    (map fst
       (filter (fun ct : Q * string => Py.truthy (Py.strip (snd ct))
                          && negb (Py.eqb (fst ct) (-1)))
          (combine (conf d) (text d)))).
Proof.
  intro Hd. apply Forall_forall. intros c Hc.
  apply in_map_iff in Hc. destruct Hc as ([c' t] & <- & Hin).
  apply filter_In in Hin. destruct Hin as [Hin Hp].
  apply andb_true_iff in Hp. destruct Hp as [_ Hp]. cbn [fst snd] in *.
  apply (averaged_scores d c' t Hd Hin). left. exact Hp.
Qed.

Lemma averaged_scores_inline (d : ocr_data) :
  Forall engine_confidence (conf d) ->
  Forall (fun c => 0 <= c /\ c <= 100)%Q
    (map (fun ct : Q * string => Py.float (fst ct))
       (filter (fun ct : Q * string => Py.truthy (Py.strip (snd ct))
                          && negb (Py.int (fst ct) =? -1)%Z)
          (combine (conf d) (text d)))).
Proof.
  intro Hd. apply Forall_forall. intros c Hc.
  apply in_map_iff in Hc. destruct Hc as ([c' t] & <- & Hin).
  apply filter_In in Hin. destruct Hin as [Hin Hp].
  apply andb_true_iff in Hp. destruct Hp as [_ Hp]. cbn [fst snd] in *.
  apply (averaged_scores d c' t Hd Hin). right. exact Hp.
Qed.

(** X3.  When every confidence is the sentinel or a score from 0 to 100,
    neither average is negative: the sentinel never lowers an average below
    0; and while one hundred times the number of confidences is below 2^53
    both averages are at most 100.  (Beyond, the rounded additions of a sum
    of scores of 100 can exceed the exact sum; the averages then still are
    at most 2^61.) *)
Theorem average_confidence_bounds :
  forall d : ocr_data,
    Forall engine_confidence (conf d) ->
    (0 <= calculate_average_confidence d)%Q /\
    (0 <= average_of_ocr_data d)%Q /\
    ((100 * Z.of_nat (List.length (conf d)) < 2 ^ 53)%Z ->
     (calculate_average_confidence d <= 100)%Q /\
     (average_of_ocr_data d <= 100)%Q) /\
    (calculate_average_confidence d <= 2 ^ 61)%Q /\
    (average_of_ocr_data d <= 2 ^ 61)%Q.
Proof.
  intros d Hd.
  pose proof (calculated_scores d Hd) as H1.
  pose proof (averaged_scores_inline d Hd) as H2.
  unfold calculate_average_confidence, average_of_ocr_data.
  split; [ exact (proj1 (average_or_zero_bounds _ H1)) |].
  split; [ exact (proj1 (average_or_zero_bounds _ H2)) |].
  split; [| split;
            [ exact (average_or_zero_in_range _ H1)
            | exact (average_or_zero_in_range _ H2) ] ].
  intro Hb. split.
  - apply (proj2 (average_or_zero_bounds _ H1)). rewrite length_map.
    pose proof (length_averaged
                  (fun ct : Q * string => Py.truthy (Py.strip (snd ct))
                     && negb (Py.eqb (fst ct) (-1))) d) as H.
    lia.
  - apply (proj2 (average_or_zero_bounds _ H2)). rewrite length_map.
    pose proof (length_averaged
                  (fun ct : Q * string => Py.truthy (Py.strip (snd ct))
                     && negb (Py.int (fst ct) =? -1)%Z) d) as H.
    lia.
Qed.

Lemma index_ok {A : Type} (l : list A) (i : nat) :
  (i < List.length l)%nat -> exists a, index l i = ok a.
Proof.
  intro H. unfold index. destruct (nth_error l i) as [a |] eqn:E.
  - exists a. reflexivity.
  - apply nth_error_None in E. lia.
Qed.

Lemma index_raise {A : Type} (l : list A) (i : nat) :
  ~ (i < List.length l)%nat -> index l i = raise IndexError.
Proof.
  intro H. unfold index. destruct (nth_error l i) as [a |] eqn:E.
  - exfalso. apply H. apply nth_error_Some. rewrite E. discriminate.
  - reflexivity.
Qed.

Lemma index_cases {A : Type} (l : list A) (i : nat) :
  (exists a, index l i = ok a) \/ index l i = raise IndexError.
Proof.
  unfold index. destruct (nth_error l i) as [a |];
    [ left; exists a; reflexivity | right; reflexivity ].
Qed.

(** The body of the table loop returns or raises [IndexError]; on a row
    with text it returns exactly when the row is complete. *)
Lemma results_body_cases (d : ocr_data) (results : list table_row) (i : nat) :
  (exists results', results_body d results i = ok results') \/
  results_body d results i = raise IndexError.
Proof.
  unfold results_body.
  destruct (index_cases (text d) i) as [(t & ->) | ->];
    [| right; reflexivity ].
  cbn [rbind ok]. destruct (negb (Py.truthy (Py.strip t)));
    [ left; eexists; reflexivity |].
  destruct (index_cases (conf d) i) as [(c & ->) | ->];
    [| right; reflexivity ].
  destruct (index_cases (left d) i) as [(x & ->) | ->];
    [| right; reflexivity ].
  destruct (index_cases (top d) i) as [(y & ->) | ->];
    [| right; reflexivity ].
  destruct (index_cases (width d) i) as [(w & ->) | ->];
    [| right; reflexivity ].
  destruct (index_cases (height d) i) as [(h & ->) | ->];
    [| right; reflexivity ].
  left. eexists. reflexivity.
Qed.

Lemma results_body_complete (d : ocr_data) (results : list table_row)
  (i : nat) (t : string) :
  nth_error (text d) i = Some t ->
  (Py.truthy (Py.strip t) = true -> row_complete d i) ->
  exists results', results_body d results i = ok results'.
Proof.
  intros Ht Hc. unfold results_body, index at 1. rewrite Ht. cbn [rbind ok].
  destruct (Py.truthy (Py.strip t)); cbn [negb];
    [| eexists; reflexivity ].
  destruct (Hc eq_refl) as (H1 & H2 & H3 & H4 & H5).
  destruct (index_ok _ _ H1) as (c & ->).
  destruct (index_ok _ _ H2) as (x & ->).
  destruct (index_ok _ _ H3) as (y & ->).
  destruct (index_ok _ _ H4) as (w & ->).
  destruct (index_ok _ _ H5) as (h & ->).
  eexists. reflexivity.
Qed.

Lemma results_body_incomplete (d : ocr_data) (results : list table_row)
  (i : nat) (t : string) :
  nth_error (text d) i = Some t ->
  Py.truthy (Py.strip t) = true -> ~ row_complete d i ->
  results_body d results i = raise IndexError.
Proof.
  intros Ht Htext Hc. unfold results_body, index at 1. rewrite Ht.
  cbn [rbind ok]. rewrite Htext. cbn [negb].
  destruct (index_cases (conf d) i) as [(c & E1) | ->]; [| reflexivity ].
  destruct (index_cases (left d) i) as [(x & E2) | E2];
    [| rewrite E1, E2; reflexivity ].
  destruct (index_cases (top d) i) as [(y & E3) | E3];
    [| rewrite E1, E2, E3; reflexivity ].
  destruct (index_cases (width d) i) as [(w & E4) | E4];
    [| rewrite E1, E2, E3, E4; reflexivity ].
  destruct (index_cases (height d) i) as [(h & E5) | E5];
    [| rewrite E1, E2, E3, E4, E5; reflexivity ].
  exfalso. apply Hc.
  assert (L : forall (A : Type) (l : list A) (a : A),
             index l i = ok a -> (i < List.length l)%nat).
  { intros A l a E. apply nth_error_Some. unfold index in E.
    destruct (nth_error l i); [ discriminate | discriminate E ]. }
  repeat split; eapply L; eassumption.
Qed.

Lemma for_each_raises {S I : Type} (body : S -> I -> res S) (e : exn)
  (items : list I) (i : I) :
  (forall s j, (exists s', body s j = ok s') \/ body s j = raise e) ->
  In i items -> (forall s, body s i = raise e) ->
  forall s, for_each body items s = raise e.
Proof.
  intros Hcases. induction items as [| j items IH]; intros Hin Hi s;
    [ destruct Hin |].
  cbn [for_each].
  destruct Hin as [-> | Hin]; [ rewrite Hi; reflexivity |].
  destruct (Hcases s j) as [(s' & ->) | ->]; [| reflexivity ].
  cbn [rbind ok]. apply IH; assumption.
Qed.

Lemma create_results_dataframe_returns (d : ocr_data) :
  (forall (i : nat) (t : string),
      nth_error (text d) i = Some t -> Py.truthy (Py.strip t) = true ->
      row_complete d i) ->
  exists table, create_results_dataframe d = ok table.
Proof.
  intro Hc. unfold create_results_dataframe, range.
  destruct (for_each_preserves (results_body d) (fun _ => True)
              (seq 0 (List.length (text d)))) with (s := @nil table_row)
    as (table & E & _).
  - intros results i Hi _. apply in_seq in Hi.
    destruct (nth_error (text d) i) as [t |] eqn:Ht;
      [| apply nth_error_None in Ht; lia ].
    destruct (results_body_complete d results i t Ht (Hc i t Ht))
      as (results' & E).
    exists results'. split; [ exact E | exact I ].
  - exact I.
  - exists table. exact E.
Qed.

Lemma create_results_dataframe_raises (d : ocr_data) (i : nat) (t : string) :
  nth_error (text d) i = Some t -> Py.truthy (Py.strip t) = true ->
  ~ row_complete d i ->
  create_results_dataframe d = raise IndexError.
Proof.
  intros Ht Htext Hc. unfold create_results_dataframe, range.
  apply for_each_raises with (i := i).
  - intros results j. apply results_body_cases.
  - apply in_seq. split; [ lia |].
    cbn [Nat.add]. apply nth_error_Some. rewrite Ht. discriminate.
  - intro results. exact (results_body_incomplete d results i t Ht Htext Hc).
Qed.

(** X4.  [create_results_dataframe] reads the other columns only on the
    rows whose trimmed text is not empty.  It returns a table when each such
    row has an entry in every column, and raises [IndexError] when one of
    them lacks an entry; it raises nothing else. *)
Theorem create_results_dataframe_index_error :
  forall d : ocr_data,
    ((forall (i : nat) (t : string),
         nth_error (text d) i = Some t -> Py.truthy (Py.strip t) = true ->
         row_complete d i) ->
     exists table, create_results_dataframe d = ok table) /\
    ((exists (i : nat) (t : string),
         nth_error (text d) i = Some t /\ Py.truthy (Py.strip t) = true /\
         ~ row_complete d i) ->
     create_results_dataframe d = raise IndexError).
Proof.
  intro d. split.
  - apply create_results_dataframe_returns.
  - intros (i & t & Ht & Htext & Hc).
    exact (create_results_dataframe_raises d i t Ht Htext Hc).
Qed.

(** ** image_preprocessor.py *)

Lemma reverse_channels_involutive (m : raster) :
  reverse_channels (reverse_channels m) = m.
Proof.
  unfold reverse_channels. rewrite map_map.
  rewrite <- (map_id m) at 2. apply map_ext. intro row.
  rewrite map_map. rewrite <- (map_id row) at 2. apply map_ext.
  intros [[c0 c1] c2]. reflexivity.
Qed.

Lemma convert_RGB_fromarray (image : Image) :
  fromarray (to_array (convert_RGB image)) = convert_RGB image.
Proof. destruct image; reflexivity. Qed.

(** X5.  The two conversions between an image and a BGR array are inverse
    to each other up to the mode: an image converted to an array and back is
    the RGB conversion of the image (the image itself when it is in mode
    RGB), and an array converted to an image and back is the array. *)
Theorem pil_cv2_round_trip :
  (forall image : Image, cv2_to_pil (pil_to_cv2 image) = convert_RGB image) /\
  (forall px : list (list color),
      cv2_to_pil (pil_to_cv2 (ImageRGB px)) = ImageRGB px) /\
  (forall m : raster, pil_to_cv2 (cv2_to_pil m) = m).
Proof.
  split; [| split ].
  - intro image. unfold cv2_to_pil, pil_to_cv2.
    rewrite reverse_channels_involutive, to_array_convert_RGB.
    rewrite <- (to_array_convert_RGB image). apply convert_RGB_fromarray.
  - intro px. unfold cv2_to_pil, pil_to_cv2.
    rewrite reverse_channels_involutive. reflexivity.
  - intro m. unfold cv2_to_pil, pil_to_cv2, fromarray, convert_RGB, to_array.
    apply reverse_channels_involutive.
Qed.

Lemma size_fromarray (m : raster) :
  size (fromarray m) = (snd (shape m), fst (shape m)).
Proof. reflexivity. Qed.

Lemma size_convert_L (image : Image) : size (convert_L image) = size image.
Proof.
  destruct image as [px | px]; [ reflexivity |].
  unfold convert_L, size.
  pose proof (shape_map luma px) as E. injection E as E1 E2.
  rewrite E1, E2. reflexivity.
Qed.

Section Filters.

(** The library filters keep the dimensions of what they process. *)
Hypothesis Contrast_size :
  forall image factor, size (Contrast_enhance image factor) = size image.
Hypothesis Sharpness_size :
  forall image factor, size (Sharpness_enhance image factor) = size image.
Hypothesis Denoising_shape :
  forall m h hColor t w,
    shape (fastNlMeansDenoisingColored m h hColor t w) = shape m.

Lemma size_denoise_image (image : Image) :
  size (denoise_image image) = size image.
Proof.
  unfold denoise_image, cv2_to_pil, pil_to_cv2.
  rewrite size_fromarray, shape_reverse_channels, Denoising_shape,
    shape_reverse_channels, to_array_convert_RGB, shape_to_array.
  cbn [fst snd]. destruct (size image). reflexivity.
Qed.

(** X6.  When the contrast, sharpness and denoising operations of the
    libraries keep the dimensions, so does [preprocess_image], for every
    combination of switches and factors: the boxes reported for the
    processed image are positions in the input image as well. *)
Theorem preprocess_image_size :
  forall (image : Image) (g c s d : bool) (cf sf : Q),
    size (preprocess_image image g c s d cf sf) = size image.
Proof.
  intros image g c s d cf sf. unfold preprocess_image, copy,
    convert_to_grayscale, enhance_contrast, enhance_sharpness.
  destruct g; [ rewrite size_convert_L |];
    (destruct s; [ rewrite Sharpness_size |]);
    (destruct c; [ rewrite Contrast_size |]);
    (destruct d; [ apply size_denoise_image | reflexivity ]).
Qed.

End Filters.

(** ** ocr_engine.py *)

Lemma draw_box_skipped (d : ocr_data) (show : bool) (m : raster) (i : nat) :
  row_skipped d i -> draw_box d show m i = ok m.
Proof.
  intros (t & Ht & Hskip). unfold draw_box, index at 1. rewrite Ht.
  cbn [rbind ok].
  destruct (Py.truthy (Py.strip t)); cbn [negb]; [| reflexivity ].
  destruct Hskip as [Hskip | (c & Hc & Hint)]; [ discriminate Hskip |].
  unfold index at 1. rewrite Hc. cbn [rbind ok]. rewrite Hint. reflexivity.
Qed.

(** X7.  When every row of the data is passed over (blank text, or a
    confidence that truncates to -1), and so when the data is empty,
    [draw_bounding_boxes] returns the RGB conversion of its input: nothing
    is drawn, whatever the drawing operations are, and the box columns are
    not read. *)
Theorem draw_bounding_boxes_nothing_to_draw :
  forall (image : Image) (d : ocr_data) (show_confidence : bool),
    (forall i : nat, (i < List.length (text d))%nat -> row_skipped d i) ->
    draw_bounding_boxes image d show_confidence = ok (convert_RGB image).
Proof.
  intros image d show Hskip. unfold draw_bounding_boxes.
  set (m0 := reverse_channels (to_array (convert_RGB image))).
  destruct (for_each_preserves (draw_box d show) (fun m => m = m0)
              (range (List.length (text d)))) with (s := m0)
    as (m1 & E & ->).
  - intros m i Hi ->. apply in_seq in Hi. exists m0.
    split; [| reflexivity ].
    apply draw_box_skipped. apply Hskip. lia.
  - reflexivity.
  - rewrite E. cbn [rbind ok]. unfold m0.
    rewrite reverse_channels_involutive, to_array_convert_RGB.
    rewrite <- (to_array_convert_RGB image).
    rewrite convert_RGB_fromarray. reflexivity.
Qed.

(** ** app.py *)

(** The run of [ocr_interface] on an image, stage by stage. *)
Lemma ocr_interface_run (image : Image) (language psm_mode : string)
  (g c s d : bool) (log : list engine_call) :
  ocr_interface (Some image) language psm_mode g c s d log =
  match dict_get LANGUAGES language with
  | None => (ok (error_outputs (KeyError language)), log)
  | Some lang_code =>
  match dict_get PSM_MODES psm_mode with
  | None => (ok (error_outputs (KeyError psm_mode)), log)
  | Some psm_code =>
  let log1 := (log ++ [Call_get_languages])%list in
  match get_languages pytesseract with
  | inl e => (ok (error_outputs e), log1)
  | inr available =>
  match filter (fun l => negb (contains available l))
          (Py.split "+" lang_code) with
  | m :: ms =>
      (ok (None, missing_language_message language (m :: ms) available,
           "", None), log1)
  | [] =>
  let processed := preprocess_image image g c s d 2 2 in
  let log2 :=
    (log1 ++ [Call_image_to_data lang_code (config_for psm_code)])%list in
  match image_to_data pytesseract processed lang_code
          (config_for psm_code) with
  | inl e => (ok (error_outputs e), log2)
  | inr data =>
  let log3 :=
    (log2 ++ [Call_image_to_string lang_code (config_for psm_code)])%list in
  match image_to_string pytesseract processed lang_code
          (config_for psm_code) with
  | inl e => (ok (error_outputs e), log3)
  | inr raw =>
  match draw_bounding_boxes processed data true with
  | inl e => (ok (error_outputs e), log3)
  | inr bbox =>
  match create_results_dataframe data with
  | inl e => (ok (error_outputs e), log3)
  | inr table =>
      (ok (Some bbox, shown_text (Py.strip raw),
           "**平均信頼度:** "
             ++ format_confidence (average_of_ocr_data data),
           Some table), log3)
  end end end end end end end end.
Proof.
  unfold ocr_interface, try_except, bind, lift, call, ret, getitem,
    process_image_with_ocr, get_ocr_data, perform_ocr, bind, call, lift, ret,
    config_for, error_outputs, shown_text, ok, raise.
  destruct (dict_get LANGUAGES language) as [lang_code |]; [| reflexivity ].
  destruct (dict_get PSM_MODES psm_mode) as [psm_code |]; [| reflexivity ].
  cbv beta iota zeta.
  destruct (get_languages pytesseract) as [e | available]; [ reflexivity |].
  cbv beta iota zeta.
  destruct (filter _ (Py.split "+" lang_code)) as [| m ms];
    [| reflexivity ].
  destruct (image_to_data pytesseract _ lang_code _) as [e | data];
    [ reflexivity |].
  cbv beta iota zeta.
  destruct (image_to_string pytesseract _ lang_code _) as [e | raw];
    [ reflexivity |].
  cbv beta iota zeta.
  destruct (draw_bounding_boxes _ data true) as [e | bbox];
    [ reflexivity |].
  cbv beta iota zeta.
  destruct (create_results_dataframe data) as [e | table]; reflexivity.
Qed.

Lemma shown_text_not_empty (t : string) : shown_text t <> "".
Proof.
  unfold shown_text, Py.truthy. destruct (String.eqb t "") eqn:E; cbn [negb].
  - discriminate.
  - apply String.eqb_neq. exact E.
Qed.

Lemma error_message_not_empty (e : exn) :
  "エラーが発生しました: " ++ exn_str e <> "".
Proof. discriminate. Qed.

Lemma missing_language_message_not_empty (language : string)
  (missing available : list string) :
  missing_language_message language missing available <> "".
Proof. discriminate. Qed.

(** X8.  [ocr_interface] never raises: for every input and every engine it
    returns its four outputs.  They have one of two shapes: no image, a
    non-empty message, an empty confidence line and no table; or an image, a
    non-empty text, the confidence line of a formatted average, and a
    table. *)
Theorem ocr_interface_never_raises :
  forall (image : option Image) (language psm_mode : string)
         (g c s d : bool) (log : list engine_call),
  exists (out : outputs) (log' : list engine_call),
    ocr_interface image language psm_mode g c s d log = (ok out, log') /\
    ((exists message : string,
         out = (None, message, "", None) /\ message <> "") \/
     (exists (bbox : Image) (shown : string) (avg : Q) (table : DataFrame),
         out = (Some bbox, shown,
                "**平均信頼度:** " ++ format_confidence avg, Some table) /\
         shown <> "")).
Proof.
  intros [image |] language psm_mode g c s d log.
  - rewrite ocr_interface_run. cbv zeta. unfold error_outputs.
    repeat match goal with
           | |- context [match ?x with _ => _ end] => destruct x
           end;
      eexists; eexists; (split; [ reflexivity |]);
      try (left; eexists; split;
           [ reflexivity
           | first [ apply error_message_not_empty
                   | apply missing_language_message_not_empty ] ]).
    right. do 4 eexists. split; [ reflexivity | apply shown_text_not_empty ].
  - eexists. eexists. split; [ reflexivity |].
    left. eexists. split; [ reflexivity | discriminate ].
Qed.

Lemma filter_nil_all {A : Type} (f : A -> bool) (l : list A) :
  filter f l = [] -> forall x, In x l -> f x = false.
Proof.
  intros E x Hx. destruct (f x) eqn:Ef; [| reflexivity ].
  assert (H : In x (filter f l)) by (apply filter_In; split; assumption).
  rewrite E in H. destruct H.
Qed.

Lemma installed_when_none_missing (available required : list string) :
  filter (fun l => negb (contains available l)) required = [] ->
  forall l, In l required -> In l available.
Proof.
  intros E l Hl. apply contains_In.
  pose proof (filter_nil_all _ _ E l Hl) as H.
  apply negb_false_iff in H. exact H.
Qed.

(** X9.  Whatever the inputs, [ocr_interface] calls each operation of the
    engine at most once and in a fixed order: the query of the installed
    languages, then the structured extraction, then the plain-text
    extraction.  An extraction is called only for a language and a mode of
    the form, with every identifier of the language code installed, and with
    the language code and the configuration string of the mode. *)
Theorem ocr_interface_calls :
  forall (image : option Image) (language psm_mode : string)
         (g c s d : bool) (log : list engine_call),
  exists calls : list engine_call,
    snd (ocr_interface image language psm_mode g c s d log)
      = (log ++ calls)%list /\
    (calls = [] \/ calls = [Call_get_languages] \/
     exists (lang_code psm_code : string) (available : list string),
       dict_get LANGUAGES language = Some lang_code /\
       dict_get PSM_MODES psm_mode = Some psm_code /\
       get_languages pytesseract = ok available /\
       (forall l, In l (Py.split "+" lang_code) -> In l available) /\
       (calls = [Call_get_languages;
                 Call_image_to_data lang_code (config_for psm_code)] \/
        calls = [Call_get_languages;
                 Call_image_to_data lang_code (config_for psm_code);
                 Call_image_to_string lang_code (config_for psm_code)])).
Proof.
  intros [image |] language psm_mode g c s d log;
    [| exists []; split; [ symmetry; apply app_nil_r | left; reflexivity ] ].
  rewrite ocr_interface_run. cbv zeta.
  destruct (dict_get LANGUAGES language) as [lang_code |] eqn:Hl;
    [| exists []; split; [ symmetry; apply app_nil_r | left; reflexivity ] ].
  destruct (dict_get PSM_MODES psm_mode) as [psm_code |] eqn:Hp;
    [| exists []; split; [ symmetry; apply app_nil_r | left; reflexivity ] ].
  destruct (get_languages pytesseract) as [e | available] eqn:Ha;
    [ exists [Call_get_languages]; split;
      [ reflexivity | right; left; reflexivity ] |].
  destruct (filter _ (Py.split "+" lang_code)) as [| m ms] eqn:Hf;
    [| exists [Call_get_languages]; split;
       [ reflexivity | right; left; reflexivity ] ].
  pose proof (installed_when_none_missing available _ Hf) as Hinst.
  destruct (image_to_data pytesseract _ lang_code _) as [e | data].
  - exists [Call_get_languages;
            Call_image_to_data lang_code (config_for psm_code)].
    split; [ cbn [snd]; rewrite <- app_assoc; reflexivity |].
    right; right. exists lang_code, psm_code, available.
    repeat split; try assumption. left. reflexivity.
  - exists [Call_get_languages;
            Call_image_to_data lang_code (config_for psm_code);
            Call_image_to_string lang_code (config_for psm_code)].
    split.
    + repeat match goal with
             | |- context [match ?x with _ => _ end] => destruct x
             end; cbn [snd]; rewrite <- !app_assoc; reflexivity.
    + right; right. exists lang_code, psm_code, available.
      repeat split; try assumption. right. reflexivity.
Qed.

Lemma not_quote (c : ascii) :
  (128 <=? N_of_ascii c)%N = true -> Ascii.eqb c "'" = false.
Proof.
  destruct c as [[] [] [] [] [] [] [] []]; intro H;
    first [ reflexivity | discriminate H ].
Qed.

Lemma plain_char_shown (c : ascii) :
  Py.plain_char c = true ->
  (N_of_ascii c <? 128)%N = true /\
  Ascii.eqb c "'" = false /\
  Py.repr_ascii "'" c = String c "".
Proof.
  destruct c as [[] [] [] [] [] [] [] []]; intro H;
    first [ discriminate H | repeat split ].
Qed.

Lemma shown_from_spec (printable : N -> bool) (s : string) :
  forall (need : nat) (cp : N) (raw : string),
    (need = O -> raw = "") ->
    Py.shown_from printable need cp s = true ->
    Py.has_char "'" s = false /\
    Py.repr_from printable "'" need cp raw s = raw ++ s.
Proof.
  induction s as [| c s IH]; intros need cp raw Hraw H.
  - split; [ reflexivity |]. cbn [Py.repr_from].
    clear. induction raw as [| x raw IHr]; [ reflexivity |].
    cbn [append]. rewrite <- IHr. reflexivity.
  - cbn [Py.shown_from Py.has_char Py.repr_from] in *.
    destruct need as [| [| need]].
    + rewrite (Hraw eq_refl). cbn [append].
      destruct (N_of_ascii c <? 128)%N eqn:A.
      * apply andb_true_iff in H. destruct H as [Hc Hs].
        destruct (plain_char_shown c Hc) as (_ & Hq & Hr).
        destruct (IH 0%nat 0%N "" (fun _ => eq_refl) Hs) as [Hh Hf].
        rewrite Hq, Hh, Hr, Hf. split; reflexivity.
      * assert (Hq : Ascii.eqb c "'" = false).
        { apply not_quote. apply N.leb_le. apply N.ltb_ge in A. exact A. }
        rewrite Hq. cbn [orb].
        destruct (N_of_ascii c <? 224)%N;
          [| destruct (N_of_ascii c <? 240)%N ];
          (edestruct IH as [Hh Hf]; [| exact H |];
           [ discriminate | split; [ exact Hh | rewrite Hf; reflexivity ] ]).
    + apply andb_true_iff in H. destruct H as [H Hs].
      apply andb_true_iff in H. destruct H as [Hb Hp].
      destruct (IH 0%nat 0%N "" (fun _ => eq_refl) Hs) as [Hh Hf].
      rewrite (not_quote c Hb), Hh, Hf. split; [ reflexivity |].
      unfold Py.repr_wide. rewrite Hp. cbn [append].
      rewrite append_assoc. reflexivity.
    + apply andb_true_iff in H. destruct H as [Hb Hs].
      edestruct IH as [Hh Hf]; [| exact Hs |]; [ discriminate |].
      rewrite (not_quote c Hb), Hh, Hf. split; [ reflexivity |].
      rewrite append_assoc. reflexivity.
Qed.

(** Between single quotes, as it is. *)
Lemma repr_shown (printable : N -> bool) (s : string) :
  Py.shown printable s = true -> Py.repr printable s = "'" ++ s ++ "'".
Proof.
  intro H.
  destruct (shown_from_spec printable s 0%nat 0%N "" (fun _ => eq_refl) H)
    as [Hh Hf].
  unfold Py.repr, Py.repr_quote. rewrite Hh. cbn [andb]. rewrite Hf.
  reflexivity.
Qed.

(** X10.  An unknown language or segmentation label is reported without any
    call to the engine: the message shows the [repr] of the label, which is
    the label between single quotes when its ASCII characters are printable
    and neither the single quote nor the backslash, and its other
    characters are printable.  The language is looked up first. *)
Theorem ocr_interface_unknown_label :
  forall (image : Image) (language psm_mode : string) (g c s d : bool)
         (log : list engine_call),
    (dict_get LANGUAGES language = None ->
     ocr_interface (Some image) language psm_mode g c s d log =
       (ok (None, "エラーが発生しました: " ++ Py.repr isprintable language,
            "", None),
        log) /\
     (Py.shown isprintable language = true ->
      ocr_interface (Some image) language psm_mode g c s d log =
        (ok (None, "エラーが発生しました: '" ++ language ++ "'", "", None),
         log))) /\
    (dict_get LANGUAGES language <> None ->
     dict_get PSM_MODES psm_mode = None ->
     ocr_interface (Some image) language psm_mode g c s d log =
       (ok (None, "エラーが発生しました: " ++ Py.repr isprintable psm_mode,
            "", None),
        log) /\
     (Py.shown isprintable psm_mode = true ->
      ocr_interface (Some image) language psm_mode g c s d log =
        (ok (None, "エラーが発生しました: '" ++ psm_mode ++ "'", "", None),
         log))).
Proof.
  intros image language psm_mode g c s d log.
  rewrite ocr_interface_run. split.
  - intros ->. split; [ reflexivity |].
    intro H. unfold error_outputs, exn_str.
    rewrite (repr_shown isprintable language H). reflexivity.
  - intros Hl ->. destruct (dict_get LANGUAGES language);
      [| exfalso; apply Hl; reflexivity ].
    split; [ reflexivity |].
    intro H. unfold error_outputs, exn_str.
    rewrite (repr_shown isprintable psm_mode H). reflexivity.
Qed.

Lemma none_missing_when_installed (available required : list string) :
  (forall l, In l required -> In l available) ->
  filter (fun l => negb (contains available l)) required = [].
Proof.
  intro H. induction required as [| x required IH]; [ reflexivity |].
  cbn [filter].
  assert (E : contains available x = true)
    by (apply contains_In, H; left; reflexivity).
  rewrite E. cbn [negb]. apply IH. intros l Hl. apply H. right. exact Hl.
Qed.



(** X12.  For a language and a mode of the form, a failure of the engine is
    reported with the message of the exception, and the request stops
    there: a failed query of the languages is followed by no extraction, and
    a failed structured extraction is not followed by the plain-text
    extraction.  No call is repeated. *)
Theorem ocr_interface_engine_failure :
  forall (image : Image) (language psm_mode : string) (g c s d : bool)
         (lang_code psm_code : string),
    dict_get LANGUAGES language = Some lang_code ->
    dict_get PSM_MODES psm_mode = Some psm_code ->
    (forall e : exn,
        get_languages pytesseract = raise e ->
        ocr_interface (Some image) language psm_mode g c s d [] =
          (ok (None, "エラーが発生しました: " ++ exn_str e, "", None),
           [Call_get_languages])) /\
    (forall (available : list string) (e : exn),
        get_languages pytesseract = ok available ->
        (forall l, In l (Py.split "+" lang_code) -> In l available) ->
        image_to_data pytesseract (preprocess_image image g c s d 2 2)
          lang_code ("--oem 3 --psm " ++ psm_code) = raise e ->
        ocr_interface (Some image) language psm_mode g c s d [] =
          (ok (None, "エラーが発生しました: " ++ exn_str e, "", None),
           [Call_get_languages;
            Call_image_to_data lang_code ("--oem 3 --psm " ++ psm_code)])) /\
    (forall (available : list string) (data : ocr_data) (e : exn),
        get_languages pytesseract = ok available ->
        (forall l, In l (Py.split "+" lang_code) -> In l available) ->
        image_to_data pytesseract (preprocess_image image g c s d 2 2)
          lang_code ("--oem 3 --psm " ++ psm_code) = ok data ->
        image_to_string pytesseract (preprocess_image image g c s d 2 2)
          lang_code ("--oem 3 --psm " ++ psm_code) = raise e ->
        ocr_interface (Some image) language psm_mode g c s d [] =
          (ok (None, "エラーが発生しました: " ++ exn_str e, "", None),
           [Call_get_languages;
            Call_image_to_data lang_code ("--oem 3 --psm " ++ psm_code);
            Call_image_to_string lang_code
              ("--oem 3 --psm " ++ psm_code)])).
Proof.
  intros image language psm_mode g c s d lang_code psm_code Hl Hp.
  rewrite ocr_interface_run, Hl, Hp. cbv zeta.
  change (config_for psm_code) with ("--oem 3 --psm " ++ psm_code).
  split; [| split ].
  - intros e ->. reflexivity.
  - intros available e -> Hinst ->. cbn [ok].
    rewrite (none_missing_when_installed _ _ Hinst). reflexivity.
  - intros available data e -> Hinst -> ->. cbn [ok].
    rewrite (none_missing_when_installed _ _ Hinst). reflexivity.
Qed.

Lemma for_each_cases {S I : Type} (body : S -> I -> res S) (e : exn)
  (items : list I) :
  (forall s j, (exists s', body s j = ok s') \/ body s j = raise e) ->
  forall s, (exists s', for_each body items s = ok s')
            \/ for_each body items s = raise e.
Proof.
  intro Hcases. induction items as [| j items IH]; intro s.
  - left. exists s. reflexivity.
  - cbn [for_each]. destruct (Hcases s j) as [(s' & ->) | ->].
    + cbn [rbind ok]. apply IH.
    + right. reflexivity.
Qed.

Lemma draw_box_cases (d : ocr_data) (show : bool) (m : raster) (i : nat) :
  (exists m', draw_box d show m i = ok m')
  \/ draw_box d show m i = raise IndexError.
Proof.
  unfold draw_box.
  destruct (index_cases (text d) i) as [(t & ->) | ->];
    [| right; reflexivity ].
  cbn [rbind ok]. destruct (negb (Py.truthy (Py.strip t)));
    [ left; eexists; reflexivity |].
  destruct (index_cases (conf d) i) as [(c & ->) | ->];
    [| right; reflexivity ].
  cbn [rbind ok]. destruct (Py.int c =? -1)%Z;
    [ left; eexists; reflexivity |].
  destruct (index_cases (left d) i) as [(x & ->) | ->];
    [| right; reflexivity ].
  destruct (index_cases (top d) i) as [(y & ->) | ->];
    [| right; reflexivity ].
  destruct (index_cases (width d) i) as [(w & ->) | ->];
    [| right; reflexivity ].
  destruct (index_cases (height d) i) as [(h & ->) | ->];
    [| right; reflexivity ].
  cbn [rbind ok]. destruct show; left; eexists; reflexivity.
Qed.

Lemma draw_bounding_boxes_cases (image : Image) (d : ocr_data)
  (show : bool) :
  (exists out, draw_bounding_boxes image d show = ok out)
  \/ draw_bounding_boxes image d show = raise IndexError.
Proof.
  unfold draw_bounding_boxes.
  destruct (for_each_cases (draw_box d show) IndexError
              (range (List.length (text d)))
              (fun m j => draw_box_cases d show m j)
              (reverse_channels (to_array (convert_RGB image))))
    as [(m & ->) | ->].
  - left. eexists. reflexivity.
  - right. reflexivity.
Qed.

(** X13.  When the structured data returned by the engine has a row with a
    non-empty trimmed text that lacks an entry in one of the other columns,
    the request ends, after both extractions, with the message of the index
    error; no image and no table are returned. *)
Theorem ocr_interface_incomplete_row :
  forall (image : Image) (language psm_mode : string) (g c s d : bool)
         (lang_code psm_code : string) (available : list string)
         (data : ocr_data) (raw : string) (i : nat) (t : string),
    dict_get LANGUAGES language = Some lang_code ->
    dict_get PSM_MODES psm_mode = Some psm_code ->
    get_languages pytesseract = ok available ->
    (forall l, In l (Py.split "+" lang_code) -> In l available) ->
    image_to_data pytesseract (preprocess_image image g c s d 2 2)
      lang_code ("--oem 3 --psm " ++ psm_code) = ok data ->
    image_to_string pytesseract (preprocess_image image g c s d 2 2)
      lang_code ("--oem 3 --psm " ++ psm_code) = ok raw ->
    nth_error (text data) i = Some t ->
    Py.truthy (Py.strip t) = true ->
    ~ row_complete data i ->
    ocr_interface (Some image) language psm_mode g c s d [] =
      (ok (None, "エラーが発生しました: list index out of range", "", None),
       [Call_get_languages;
        Call_image_to_data lang_code ("--oem 3 --psm " ++ psm_code);
        Call_image_to_string lang_code ("--oem 3 --psm " ++ psm_code)]).
Proof.
  intros image language psm_mode g c s d lang_code psm_code available data
    raw i t Hl Hp Ha Hinst Hdata Hraw Ht Htext Hrow.
  rewrite ocr_interface_run, Hl, Hp. cbv zeta. rewrite Ha. cbn [ok].
  rewrite (none_missing_when_installed _ _ Hinst).
  change (config_for psm_code) with ("--oem 3 --psm " ++ psm_code).
  rewrite Hdata. cbn [ok]. rewrite Hraw. cbn [ok].
  destruct (draw_bounding_boxes_cases
              (preprocess_image image g c s d 2 2) data true)
    as [(bbox & ->) | ->]; [| reflexivity ].
  cbn [ok].
  rewrite (create_results_dataframe_raises data i t Ht Htext Hrow).
  reflexivity.
Qed.

Lemma filter_none {A : Type} (f : A -> bool) (l : list A) :
  (forall x, In x l -> f x = false) -> filter f l = [].
Proof.
  induction l as [| x l IH]; intro H; [ reflexivity |].
  cbn [filter]. rewrite (H x (or_introl eq_refl)).
  apply IH. intros y Hy. apply H. right. exact Hy.
Qed.

(** X14.  For confidences as the engine reports them (the sentinel, or a
    score from 0 to 100) the confidence line of a result never shows "N/A",
    the average being a number from 0 to 100; and when every word is blank
    or carries the sentinel, the line shows "0.0%". *)
Theorem confidence_line_never_NA :
  forall d : ocr_data,
    Forall engine_confidence (conf d) ->
    format_confidence (average_of_ocr_data d) <> "N/A" /\
    ((forall (c : Q) (t : string),
         In (c, t) (combine (conf d) (text d)) ->
         Py.truthy (Py.strip t) = false \/ (c == -1)%Q) ->
     format_confidence (average_of_ocr_data d) = "0.0%").
Proof.
  intros d Hd. split.
  - intro H. unfold format_confidence, Py.eqb in H.
    destruct (Qeq_bool (average_of_ocr_data d) (-1)) eqn:E;
      [| exact (append_percent_not_NA _ H) ].
    apply Qeq_bool_iff in E.
    assert (B : (0 <= average_of_ocr_data d)%Q)
      by exact (proj1 (average_or_zero_bounds _
                         (averaged_scores_inline d Hd))).
    rewrite E in B. apply B. reflexivity.
  - intro Hrows. unfold average_of_ocr_data.
    rewrite filter_none; [ reflexivity |].
    intros [c t] Hin. cbn [fst snd].
    destruct (Hrows c t Hin) as [Ht | Hc].
    + rewrite Ht. reflexivity.
    + rewrite (int_of_sentinel c Hc). apply andb_false_r.
Qed.

Lemma dict_get_key {V : Type} (d : dict V) (k : string) :
  In k (keys d) -> exists v, dict_get d k = Some v.
Proof.
  induction d as [| [k' v] d IH]; intro H; [ destruct H |].
  cbn [dict_get]. destruct (String.eqb k k') eqn:E;
    [ exists v; reflexivity |].
  destruct H as [H | H]; [| exact (IH H) ].
  cbn [fst] in H. subst k'. rewrite String.eqb_refl in E. discriminate E.
Qed.

(** X15.  The choices offered by the two dropdowns of the form are the keys
    of the two tables, and the initial selections are among them; for every
    such pair of choices and every image the lookups of [ocr_interface]
    succeed, so the request reaches the engine: its first call is the query
    of the installed languages. *)
Theorem form_choices_reach_engine :
  In language_default language_choices /\
  In psm_default psm_choices /\
  forall (image : Image) (language psm_mode : string) (g c s d : bool),
    In language language_choices -> In psm_mode psm_choices ->
    exists rest : list engine_call,
      snd (ocr_interface (Some image) language psm_mode g c s d [])
        = Call_get_languages :: rest.
Proof.
  split; [ right; left; reflexivity | split; [ left; reflexivity |] ].
  intros image language psm_mode g c s d Hl Hp.
  destruct (dict_get_key LANGUAGES language Hl) as (lang_code & El).
  destruct (dict_get_key PSM_MODES psm_mode Hp) as (psm_code & Ep).
  rewrite ocr_interface_run, El, Ep. cbv zeta.
  repeat match goal with
         | |- context [match ?x with _ => _ end] => destruct x
         end; eexists; reflexivity.
Qed.

Lemma draw_box_returns (d : ocr_data) (show : bool) (m : raster) (i : nat)
  (t : string) :
  nth_error (text d) i = Some t ->
  (Py.truthy (Py.strip t) = true ->
   exists c, nth_error (conf d) i = Some c /\
             (Py.int c = -1 \/ box_complete d i)) ->
  exists m', draw_box d show m i = ok m'.
Proof.
  intros Ht Hrow. unfold draw_box, index at 1. rewrite Ht. cbn [rbind ok].
  destruct (Py.truthy (Py.strip t)); cbn [negb];
    [| eexists; reflexivity ].
  destruct (Hrow eq_refl) as (c & Hc & Hbox).
  unfold index at 1. rewrite Hc. cbn [rbind ok].
  destruct (Py.int c =? -1)%Z eqn:E; [ eexists; reflexivity |].
  destruct Hbox as [Hint | (H1 & H2 & H3 & H4)];
    [ rewrite Hint in E; discriminate E |].
  destruct (index_ok _ _ H1) as (x & ->).
  destruct (index_ok _ _ H2) as (y & ->).
  destruct (index_ok _ _ H3) as (w & ->).
  destruct (index_ok _ _ H4) as (h & ->).
  unfold index. rewrite Hc. cbn [rbind ok].
  destruct show; eexists; reflexivity.
Qed.

Lemma draw_box_raises (d : ocr_data) (show : bool) (m : raster) (i : nat)
  (t : string) :
  nth_error (text d) i = Some t -> Py.truthy (Py.strip t) = true ->
  (nth_error (conf d) i = None \/
   exists c, nth_error (conf d) i = Some c /\ Py.int c <> -1
             /\ ~ box_complete d i) ->
  draw_box d show m i = raise IndexError.
Proof.
  intros Ht Htext Hrow. unfold draw_box, index at 1. rewrite Ht.
  cbn [rbind ok]. rewrite Htext. cbn [negb].
  destruct Hrow as [Hc | (c & Hc & Hint & Hbox)];
    unfold index at 1; rewrite Hc; [ reflexivity |].
  cbn [rbind ok]. apply Z.eqb_neq in Hint. rewrite Hint.
  destruct (index_cases (left d) i) as [(x & E1) | ->]; [| reflexivity ].
  destruct (index_cases (top d) i) as [(y & E2) | E2];
    [| rewrite E1, E2; reflexivity ].
  destruct (index_cases (width d) i) as [(w & E3) | E3];
    [| rewrite E1, E2, E3; reflexivity ].
  destruct (index_cases (height d) i) as [(h & E4) | E4];
    [| rewrite E1, E2, E3, E4; reflexivity ].
  exfalso. apply Hbox.
  assert (L : forall (A : Type) (l : list A) (a : A),
             index l i = ok a -> (i < List.length l)%nat).
  { intros A l a E. apply nth_error_Some. unfold index in E.
    destruct (nth_error l i); [ discriminate | discriminate E ]. }
  repeat split; eapply L; eassumption.
Qed.

(** X16.  [draw_bounding_boxes] reads the confidence only on the rows whose
    trimmed text is not empty, and the box only when that confidence does
    not truncate to -1.  It returns an image when every row with text has a
    confidence and, unless it truncates to -1, a box; it raises [IndexError]
    when a row with text has no confidence, or has one that does not
    truncate to -1 and lacks an entry of its box. *)
Theorem draw_bounding_boxes_index_error :
  forall (image : Image) (d : ocr_data) (show_confidence : bool),
    ((forall (i : nat) (t : string),
         nth_error (text d) i = Some t -> Py.truthy (Py.strip t) = true ->
         exists c, nth_error (conf d) i = Some c /\
                   (Py.int c = -1 \/ box_complete d i)) ->
     exists out, draw_bounding_boxes image d show_confidence = ok out) /\
    ((exists (i : nat) (t : string),
         nth_error (text d) i = Some t /\ Py.truthy (Py.strip t) = true /\
         (nth_error (conf d) i = None \/
          exists c, nth_error (conf d) i = Some c /\ Py.int c <> -1
                    /\ ~ box_complete d i)) ->
     draw_bounding_boxes image d show_confidence = raise IndexError).
Proof.
  intros image d show. unfold draw_bounding_boxes. split.
  - intro Hrows.
    destruct (for_each_preserves (draw_box d show) (fun _ => True)
                (range (List.length (text d))))
      with (s := reverse_channels (to_array (convert_RGB image)))
      as (m & E & _).
    + intros m i Hi _. apply in_seq in Hi.
      destruct (nth_error (text d) i) as [t |] eqn:Ht;
        [| apply nth_error_None in Ht; lia ].
      destruct (draw_box_returns d show m i t Ht (Hrows i t Ht))
        as (m' & E).
      exists m'. split; [ exact E | exact I ].
    + exact I.
    + rewrite E. eexists. reflexivity.
  - intros (i & t & Ht & Htext & Hrow).
    rewrite (for_each_raises (draw_box d show) IndexError
               (range (List.length (text d))) i).
    + reflexivity.
    + intros m j. apply draw_box_cases.
    + apply in_seq. split; [ lia |].
      cbn [Nat.add]. apply nth_error_Some. rewrite Ht. discriminate.
    + intro m. exact (draw_box_raises d show m i t Ht Htext Hrow).
Qed.

End Program.

(* ===================================================================== *)
(** * The statements on the small model of the libraries *)
(* ===================================================================== *)

Lemma paint_row_length (area : nat * nat -> bool) (c : color) (y : nat)
  (row : list color) :
  forall x : nat, List.length (Ref.paint_row area c y x row) = List.length row.
Proof.
  induction row as [| p row IH]; intro x; simpl;
    [ reflexivity | rewrite IH; reflexivity ].
Qed.

Lemma paint_row_nth_error (area : nat * nat -> bool) (c : color) (y : nat)
  (row : list color) :
  forall x k : nat,
    nth_error (Ref.paint_row area c y x row) k =
    option_map (fun p => if area ((x + k)%nat, y) then c else p)
      (nth_error row k).
Proof.
  induction row as [| p row IH]; intros x [| k]; simpl; try reflexivity.
  - rewrite Nat.add_0_r. reflexivity.
  - rewrite IH. rewrite Nat.add_succ_r. reflexivity.
Qed.

Lemma paint_rows_nth (area : nat * nat -> bool) (c : color) (m : raster) :
  forall y k : nat,
    nth k (Ref.paint_rows area c y m) [] =
    Ref.paint_row area c (y + k) 0 (nth k m []).
Proof.
  induction m as [| row m IH]; intros y [| k]; simpl; try reflexivity.
  - rewrite Nat.add_0_r. reflexivity.
  - rewrite IH. rewrite Nat.add_succ_r. reflexivity.
Qed.

Lemma paint_rows_length (area : nat * nat -> bool) (c : color) (m : raster) :
  forall y : nat, List.length (Ref.paint_rows area c y m) = List.length m.
Proof.
  induction m as [| row m IH]; intro y; simpl;
    [ reflexivity | rewrite IH; reflexivity ].
Qed.

Lemma shape_paint (area : nat * nat -> bool) (c : color) (m : raster) :
  shape (Ref.paint area c m) = shape m.
Proof.
  unfold shape, Ref.paint. rewrite paint_rows_length.
  destruct m as [| row m]; simpl; [ reflexivity |].
  rewrite paint_row_length. reflexivity.
Qed.

Lemma pixel_paint (area : nat * nat -> bool) (c : color) (m : raster)
  (p : nat * nat) :
  pixel (Ref.paint area c m) p =
  option_map (fun q => if area p then c else q) (pixel m p).
Proof.
  destruct p as [x y]. unfold pixel, Ref.paint. cbn [fst snd].
  rewrite paint_rows_nth, paint_row_nth_error. reflexivity.
Qed.

Lemma pixel_paint_outside (area : nat * nat -> bool) (c : color) (m : raster)
  (p : nat * nat) :
  area p = false -> pixel (Ref.paint area c m) p = pixel m p.
Proof.
  intro H. rewrite pixel_paint, H. destruct (pixel m p); reflexivity.
Qed.

Lemma data_aligned : aligned Ref.data.
Proof. repeat split. Qed.

Lemma data_in_range : Forall conf_in_range (conf Ref.data).
Proof. repeat constructor; discriminate. Qed.

Lemma data_result_set : result_set Ref.data.
Proof. split; [ exact data_aligned | exact data_in_range ]. Qed.


(** The average of the twenty scores is the binary64 number nearest to
    80.35, which is below 80.35, and is shown as 80.3%; the arithmetic mean
    itself would be shown as 80.4%. *)
Lemma scores_average :
  (average_of_ocr_data Sample.scores
   == Py.of_binary64 0x1.4166666666666p+6)%Q /\
  (average_of_ocr_data Sample.scores < 1607 # 20)%Q /\
  (mean (conf Sample.scores) == 1607 # 20)%Q /\
  format_confidence (average_of_ocr_data Sample.scores) = "80.3%" /\
  format_confidence (1607 # 20) = "80.4%".
Proof. vm_compute. repeat split; intro H; discriminate H. Qed.



Lemma ocr_interface_missing_language_witness :
  dict_get LANGUAGES "日本語" = Some "jpn" /\
  exists calls : list engine_call,
    ocr_interface Ref.isprintable Ref.luma Ref.enhance Ref.enhance Ref.denoise
      Ref.rectangle Ref.getTextSize Ref.putText
      (Ref.engine ["eng"] Ref.data "")
      (Some Ref.page) "日本語" "6: 単一の均一なテキストブロック"
      false false false false [] =
    (ok (None, missing_language_message "日本語" ["jpn"] ["eng"], "", None),
     calls) /\
    existsb is_ocr_call calls = false /\
    occurs "jpn" (missing_language_message "日本語" ["jpn"] ["eng"]) /\
    occurs "eng" (missing_language_message "日本語" ["jpn"] ["eng"]).
Proof.
  split; [ reflexivity |].
  assert (Hmissing : exists l, In l (Py.split "+" "jpn") /\ ~ In l ["eng"]).
  { exists "jpn". split; [ left; reflexivity |].
    intros [H | []]. discriminate H. }
  destruct (ocr_interface_missing_language
              Ref.isprintable Ref.luma Ref.enhance Ref.enhance Ref.denoise
              Ref.rectangle Ref.getTextSize Ref.putText
              (Ref.engine ["eng"] Ref.data "")
              Ref.page "日本語" "6: 単一の均一なテキストブロック"
              false false false false "jpn" "6" ["eng"]
              eq_refl eq_refl eq_refl Hmissing)
    as (msg & calls & E & _ & Hno & Emsg & _ & Hmiss & Havail & _).
  exists calls. rewrite Emsg in E, Hmiss, Havail.
  split; [ exact E | split; [ exact Hno | split ] ].
  - apply Hmiss; [ left; reflexivity |].
    intros [H | []]. discriminate H.
  - apply Havail. left. reflexivity.
Defined.

Lemma create_results_dataframe_rows_witness :
  aligned Ref.data /\
  create_results_dataframe Ref.data =
    ok [ mk_table_row "TEST" "96.0%" 5 12 30 10;
         mk_table_row "123" "45.5%" 45 12 22 10 ].
Proof.
  split; [ exact data_aligned |].
  destruct (create_results_dataframe_rows Ref.data data_aligned)
    as (table & E & -> & _).
  exact E.
Defined.

Lemma draw_bounding_boxes_frame_witness :
  aligned Ref.data /\
  exists result_image : Image,
    draw_bounding_boxes Ref.rectangle Ref.getTextSize Ref.putText
      Ref.page Ref.data true = ok result_image /\
    size result_image = (80%nat, 30%nat) /\
    rgb_at result_image (60%nat, 28%nat) = Some (255, 255, 255).
Proof.
  split; [ exact data_aligned |].
  destruct (draw_bounding_boxes_frame
              Ref.rectangle Ref.getTextSize Ref.putText
              Ref.rectangle_area Ref.text_area
              (fun m p1 p2 c t => shape_paint _ c m)
              (fun m p1 p2 c t p H => pixel_paint_outside _ c m p H)
              (fun m s o f k c t => shape_paint _ c m)
              (fun m s o f k c t p H => pixel_paint_outside _ c m p H)
              Ref.page Ref.data true data_aligned)
    as (_ & out & E & Hsize & Hframe & _).
  exists out. split; [ exact E | split; [ exact Hsize |] ].
  rewrite Hframe; reflexivity.
Defined.

Lemma averages_agree_witness :
  result_set Ref.data /\
  average_of_ocr_data Ref.data = calculate_average_confidence Ref.data /\
  exists bbox_image : Image,
    fst (process_image_with_ocr Ref.rectangle Ref.getTextSize Ref.putText
           (Ref.engine ["eng"] Ref.data "TEST 123")
           Ref.page "eng" "6" false []) =
      ok (bbox_image, "TEST 123", Ref.data,
          calculate_average_confidence Ref.data).
Proof.
  split; [ exact data_result_set |].
  destruct (averages_agree
              Ref.rectangle Ref.getTextSize Ref.putText
              (Ref.engine ["eng"] Ref.data "TEST 123")
              Ref.data data_result_set) as [E H].
  split; [ exact E |].
  exact (H Ref.page "eng" "6" false "TEST 123" [] eq_refl eq_refl).
Defined.

(* ===================================================================== *)
(** * The further properties on the small model of the libraries *)
(* ===================================================================== *)

Lemma data_engine_confidence : Forall engine_confidence (conf Ref.data).
Proof.
  unfold Ref.data. cbn [conf].
  repeat apply Forall_cons; try apply Forall_nil;
    solve [ left; reflexivity | right; split; discriminate ].
Qed.


Lemma average_confidence_bounds_witness :
  Forall engine_confidence (conf Ref.data) /\
  (0 <= calculate_average_confidence Ref.data <= 100)%Q.
Proof.
  split; [ exact data_engine_confidence |].
  destruct (average_confidence_bounds Ref.data data_engine_confidence)
    as (Hlo & _ & Hhi & _).
  split; [ exact Hlo | exact (proj1 (Hhi eq_refl)) ].
Defined.

Lemma preprocess_image_size_witness :
  size (preprocess_image Ref.luma Ref.enhance Ref.enhance Ref.denoise
          Ref.page true true true true 2 2) = (80%nat, 30%nat).
Proof.
  rewrite (preprocess_image_size Ref.luma Ref.enhance Ref.enhance Ref.denoise
             (fun image factor => eq_refl) (fun image factor => eq_refl)
             (fun m h hColor t w => eq_refl)
             Ref.page true true true true 2 2).
  reflexivity.
Defined.

Lemma placeholders_skipped :
  forall i : nat,
    (i < List.length (text Sample.placeholders))%nat ->
    row_skipped Sample.placeholders i.
Proof.
  intros [| [| [| i]]] Hi; [| | | cbn in Hi; lia ].
  - exists "". split; [ reflexivity | left; reflexivity ].
  - exists "x". split; [ reflexivity |].
    right. exists (-1)%Q. split; reflexivity.
  - exists "  ". split; [ reflexivity | left; reflexivity ].
Qed.

Lemma draw_bounding_boxes_nothing_to_draw_witness :
  (forall i : nat,
      (i < List.length (text Sample.placeholders))%nat ->
      row_skipped Sample.placeholders i) /\
  draw_bounding_boxes Ref.rectangle Ref.getTextSize Ref.putText
    (ImageL [[7; 8]]) Sample.placeholders true =
  ok (ImageRGB [[(7, 7, 7); (8, 8, 8)]]).
Proof.
  split; [ exact placeholders_skipped |].
  exact (draw_bounding_boxes_nothing_to_draw
           Ref.rectangle Ref.getTextSize Ref.putText
           (ImageL [[7; 8]]) Sample.placeholders true placeholders_skipped).
Defined.

Lemma eng_installed :
  forall l, In l (Py.split "+" "eng") -> In l ["eng"].
Proof. intros l H. exact H. Qed.


(** Labels that are not in the tables: a label with a single quote is shown
    between double quotes, a backslash is doubled, and a label of printable
    characters is shown between single quotes. *)
Lemma ocr_interface_unknown_label_witness :
  dict_get LANGUAGES "it's" = None /\
  dict_get LANGUAGES "英語" <> None /\
  dict_get PSM_MODES "a\b" = None /\
  dict_get LANGUAGES "ドイツ語" = None /\
  Py.shown Ref.isprintable "ドイツ語" = true /\
  ocr_interface Ref.isprintable Ref.luma Ref.enhance Ref.enhance Ref.denoise
    Ref.rectangle Ref.getTextSize Ref.putText
    (Ref.engine ["eng"] Ref.data "")
    (Some Ref.page) "it's" "3" false false false false [] =
  (ok (None,
       "エラーが発生しました: "
         ++ String Py.double_quote ("it's" ++ String Py.double_quote ""),
       "", None), []) /\
  ocr_interface Ref.isprintable Ref.luma Ref.enhance Ref.enhance Ref.denoise
    Ref.rectangle Ref.getTextSize Ref.putText
    (Ref.engine ["eng"] Ref.data "")
    (Some Ref.page) "英語" "a\b" false false false false [] =
  (ok (None, "エラーが発生しました: 'a\\b'", "", None), []) /\
  ocr_interface Ref.isprintable Ref.luma Ref.enhance Ref.enhance Ref.denoise
    Ref.rectangle Ref.getTextSize Ref.putText
    (Ref.engine ["eng"] Ref.data "")
    (Some Ref.page) "ドイツ語" "3" false false false false [] =
  (ok (None, "エラーが発生しました: 'ドイツ語'", "", None), []).
Proof.
  assert (Hl : dict_get LANGUAGES "英語" <> None) by discriminate.
  split; [ reflexivity |]. split; [ exact Hl |].
  split; [ reflexivity |]. split; [ reflexivity |].
  split; [ reflexivity |].
  split; [| split ].
  - exact (proj1 (proj1 (ocr_interface_unknown_label
             Ref.isprintable Ref.luma Ref.enhance Ref.enhance Ref.denoise
             Ref.rectangle Ref.getTextSize Ref.putText
             (Ref.engine ["eng"] Ref.data "")
             Ref.page "it's" "3" false false false false []) eq_refl)).
  - exact (proj1 (proj2 (ocr_interface_unknown_label
             Ref.isprintable Ref.luma Ref.enhance Ref.enhance Ref.denoise
             Ref.rectangle Ref.getTextSize Ref.putText
             (Ref.engine ["eng"] Ref.data "")
             Ref.page "英語" "a\b" false false false false []) Hl eq_refl)).
  - exact (proj2 (proj1 (ocr_interface_unknown_label
             Ref.isprintable Ref.luma Ref.enhance Ref.enhance Ref.denoise
             Ref.rectangle Ref.getTextSize Ref.putText
             (Ref.engine ["eng"] Ref.data "")
             Ref.page "ドイツ語" "3" false false false false []) eq_refl)
           eq_refl).
Defined.

Lemma ocr_interface_engine_failure_witness :
  ocr_interface Ref.isprintable Ref.luma Ref.enhance Ref.enhance Ref.denoise
    Ref.rectangle Ref.getTextSize Ref.putText
    (Sample.failing_engine ["eng"] "Tesseract is not responding")
    (Some Ref.page) "英語" "6: 単一の均一なテキストブロック"
    false false false false [] =
  (ok (None, "エラーが発生しました: Tesseract is not responding", "", None),
   [Call_get_languages; Call_image_to_data "eng" "--oem 3 --psm 6"]).
Proof.
  exact (proj1 (proj2
           (ocr_interface_engine_failure
              Ref.isprintable Ref.luma Ref.enhance Ref.enhance Ref.denoise
              Ref.rectangle Ref.getTextSize Ref.putText
              (Sample.failing_engine ["eng"] "Tesseract is not responding")
              Ref.page "英語" "6: 単一の均一なテキストブロック"
              false false false false "eng" "6" eq_refl eq_refl))
           ["eng"] (EngineError "Tesseract is not responding")
           eq_refl eng_installed eq_refl).
Defined.

Lemma truncated_incomplete : ~ row_complete Sample.truncated 1.
Proof. intros (_ & H & _). cbn in H. lia. Qed.

Lemma ocr_interface_incomplete_row_witness :
  ~ row_complete Sample.truncated 1 /\
  ocr_interface Ref.isprintable Ref.luma Ref.enhance Ref.enhance Ref.denoise
    Ref.rectangle Ref.getTextSize Ref.putText
    (Ref.engine ["eng"] Sample.truncated "word")
    (Some Ref.page) "英語" "6: 単一の均一なテキストブロック"
    false false false false [] =
  (ok (None, "エラーが発生しました: list index out of range", "", None),
   [Call_get_languages; Call_image_to_data "eng" "--oem 3 --psm 6";
    Call_image_to_string "eng" "--oem 3 --psm 6"]).
Proof.
  split; [ exact truncated_incomplete |].
  exact (ocr_interface_incomplete_row
           Ref.isprintable Ref.luma Ref.enhance Ref.enhance Ref.denoise
           Ref.rectangle Ref.getTextSize Ref.putText
           (Ref.engine ["eng"] Sample.truncated "word")
           Ref.page "英語" "6: 単一の均一なテキストブロック"
           false false false false "eng" "6" ["eng"] Sample.truncated "word"
           1%nat "word"
           eq_refl eq_refl eq_refl eng_installed eq_refl eq_refl
           eq_refl eq_refl truncated_incomplete).
Defined.

Lemma confidence_line_never_NA_witness :
  Forall engine_confidence (conf Ref.data) /\
  format_confidence (average_of_ocr_data Ref.data) <> "N/A".
Proof.
  split; [ exact data_engine_confidence |].
  exact (proj1 (confidence_line_never_NA Ref.data data_engine_confidence)).
Defined.
